(** * LLM chat application template: edge worker and offline cache shell

    A shallow embedding of the two programs of the repository:

    - the edge worker (request router [Worker.fetch] and chat relay
      [Worker.handleChatRequest]);
    - the browser service worker [sw.js] (install, activate and fetch
      listeners over the browser's cache storage).

    JavaScript values that the code inspects are embedded as the [json]
    type; promises are embedded as computations that either resolve with a
    value or reject with an error, and that record the calls they make to
    the collaborators of the program (inference binding, asset binding,
    network, cache storage) in a trace. *)

From Stdlib Require Import String Ascii ZArith List Bool.
From stdpp Require Import gmap strings list fin_maps pretty.
Import ListNotations.

Set Warnings "-register-all".

Local Open Scope string_scope.
Local Open Scope Z_scope.

(** ** Values shared by both programs *)

(** The character U+0022, written by its code so that string literals can be
    assembled around it. *)
Definition dquote : ascii := "034"%char.
Definition bslash : ascii := "092"%char.

(** A value produced by [JSON.parse].  Objects keep their members in
    source order; a number is never inspected by the code and is carried
    as an integer. *)
Inductive json : Type :=
| JNull
| JBool (b : bool)
| JNum (n : Z)
| JString (s : string)
| JArray (items : list json)
| JObject (members : list (string * json)).

(** Outcome of a promise (or of a [try] block): fulfilled with a value or
    rejected with an error. *)
Inductive error : Type :=
| SyntaxError
| TypeError
| HostError (reason : string).

Inductive outcome (A : Type) : Type :=
| Resolved (a : A)
| Rejected (e : error).
Arguments Resolved {A} a.
Arguments Rejected {A} e.

(** A URL as [new URL(request.url)] exposes it. *)
Record URL : Type := mkURL {
  origin : string;
  pathname : string;
  search : string
}.

Definition href (u : URL) : string :=
  origin u ++ pathname u ++ search u.

(** An opaque byte stream handed over by the inference binding. *)
Definition ReadableStream : Type := list Byte.byte.

Inductive Body : Type :=
| BodyText (text : string)
| BodyStream (s : ReadableStream).

(** [new Response(body, { status, headers })]: [status] defaults to 200;
    [headers] are the ones given to the constructor. *)
Record Response : Type := mkResponse {
  status : Z;
  headers : list (string * string);
  body : Body
}.

Definition new_Response (b : Body) (st : option Z)
    (hs : list (string * string)) : Response :=
  {| status := match st with Some n => n | None => 200 end;
     headers := hs;
     body := b |}.

(** A Fetch API request: parsed URL, method, mode, and what
    [request.json()] settles to ([None] when the body is not JSON text). *)
Record Request : Type := mkRequest {
  url : URL;
  method : string;
  mode : string;
  body_json : option json
}.

(** Own-property lookup in an object built by [JSON.parse]: when a member
    name is repeated the last one wins. *)
Fixpoint lookup_member (k : string) (ms : list (string * json)) : option json :=
  match ms with
  | [] => None
  | (k', v) :: rest =>
      match lookup_member k rest with
      | Some w => Some w
      | None => if String.eqb k' k then Some v else None
      end
  end.

(** [v.k] for one of the keys the relay reads ([messages], [role]), which
    no built-in prototype defines: [None] is [undefined]; reading a property
    of [null] throws. *)
Definition get_property (v : json) (k : string) : outcome (option json) :=
  match v with
  | JNull => Rejected TypeError
  | JObject ms => Resolved (lookup_member k ms)
  | _ => Resolved None
  end.

(** [a === b] against a string literal. *)
Definition strict_eq_string (v : option json) (s : string) : bool :=
  match v with
  | Some (JString t) => String.eqb t s
  | _ => false
  end.

(** ** [JSON.stringify] *)

Definition hex_digit (n : N) : ascii :=
  match n with
  | 0%N => "0" | 1%N => "1" | 2%N => "2" | 3%N => "3"
  | 4%N => "4" | 5%N => "5" | 6%N => "6" | 7%N => "7"
  | 8%N => "8" | 9%N => "9" | 10%N => "a" | 11%N => "b"
  | 12%N => "c" | 13%N => "d" | 14%N => "e" | _ => "f"
  end%char.

(** The escape of one character inside a JSON string literal. *)
Definition escape_char (c : ascii) : string :=
  let n := N_of_ascii c in
  if Ascii.eqb c dquote then String bslash (String dquote "")
  else if Ascii.eqb c bslash then String bslash (String bslash "")
  else if (n =? 8)%N then String bslash "b"
  else if (n =? 12)%N then String bslash "f"
  else if (n =? 10)%N then String bslash "n"
  else if (n =? 13)%N then String bslash "r"
  else if (n =? 9)%N then String bslash "t"
  else if (n <? 32)%N then
    String bslash
      ("u00" ++ String (hex_digit (n / 16)) (String (hex_digit (n mod 16)) ""))
  else String c "".

Fixpoint escape_string (s : string) : string :=
  match s with
  | EmptyString => EmptyString
  | String c rest => escape_char c ++ escape_string rest
  end.

Definition quote_string (s : string) : string :=
  String dquote (escape_string s ++ String dquote "").

Fixpoint JSON_stringify (v : json) : string :=
  match v with
  | JNull => "null"
  | JBool true => "true"
  | JBool false => "false"
  | JNum n => pretty n
  | JString s => quote_string s
  | JArray items =>
      "[" ++ String.concat "," (List.map JSON_stringify items) ++ "]"
  | JObject members =>
      "{" ++ String.concat ","
               (List.map (fun kv => quote_string (fst kv) ++ ":" ++ JSON_stringify (snd kv))
                         members) ++ "}"
  end.

(** * The edge worker *)

Module Worker.

(** ** Constants *)

Definition MODEL_ID : string := "@cf/meta/llama-3.1-8b-instruct-fp8".

Definition newline : string := String "010"%char "".

(** [s] between two U+0022 characters, as it stands in the prompt text. *)
Definition quoted (s : string) : string :=
  String dquote (s ++ String dquote "").

Definition SYSTEM_PROMPT : string :=
  String.concat newline [
    "You are Ben, a sharp and thoughtful AI assistant. You're direct, warm, and genuinely useful — you don't pad responses with filler, you don't over-explain, and you don't lecture.";
    "";
    "## Personality";
    "- Conversational and human in tone — like a knowledgeable friend, not a corporate chatbot";
    "- Confident but not arrogant. You have opinions and share them when asked";
    "- Concise by default. You match the length of your response to the complexity of the question — short questions get short answers, complex ones get thorough treatment";
    "- You have a dry, understated wit. You're not trying to be funny, but you're not robotic either";
    "- You never start a response with hollow affirmations like " ++ quoted "Great question!"
      ++ ", " ++ quoted "Certainly!" ++ ", " ++ quoted "Of course!" ++ ", or "
      ++ quoted "Absolutely!";
    "";
    "## Behavior";
    "- Get to the point immediately. Lead with the answer, then add context if needed";
    "- When you don't know something, say so plainly — don't speculate as if it's fact";
    "- If a question is ambiguous, make a reasonable assumption and answer it, then note your assumption at the end";
    "- For tasks (writing, coding, analysis), just do the task — don't narrate what you're about to do";
    "- You can push back respectfully if you disagree or think there's a better approach";
    "- Avoid bullet points for conversational responses. Use them only when a list genuinely helps";
    "";
    "## Boundaries";
    "- You don't produce harmful, illegal, or deceptive content";
    "- You don't pretend to be a human if sincerely asked";
    "- You won't claim to have real-time information or browsing ability unless that capability is explicitly enabled";
    "";
    "## Format";
    "- Default to plain prose for conversation";
    "- Use markdown (headers, bullets, code blocks) only when it adds clarity — not as decoration";
    "- Keep responses tight. If something can be said in one sentence, don't use three"
  ].

(** ** Collaborators and effects *)

(** Second argument of [env.AI.run]. *)
Record AiInputs : Type := mkAiInputs {
  messages : json;
  max_tokens : Z;
  stream : bool
}.

(** The bindings of the worker: the inference binding [env.AI] and the
    static-asset binding [env.ASSETS].  Each call settles to a value or
    rejects. *)
Record Env : Type := mkEnv {
  AI_run : string -> AiInputs -> json -> outcome ReadableStream;
  ASSETS_fetch : Request -> outcome Response
}.

(** What a run of the worker does to the outside, in order. *)
Inductive Event : Type :=
| AssetsFetch (request : Request)
| AiRun (model : string) (inputs : AiInputs) (options : json)
| ConsoleError (label : string) (e : error).

(** An [async] computation: the calls it made and how it settled. *)
Definition M (A : Type) : Type := (list Event * outcome A)%type.

Definition ret {A} (a : A) : M A := ([], Resolved a).

Definition bind {A B} (m : M A) (k : A -> M B) : M B :=
  match m with
  | (t, Resolved a) => let (t2, r) := k a in ((t ++ t2)%list, r)
  | (t, Rejected e) => (t, Rejected e)
  end.

(** [try { m } catch (error) { h error }] *)
Definition try_catch {A} (m : M A) (h : error -> M A) : M A :=
  match m with
  | (t, Resolved a) => (t, Resolved a)
  | (t, Rejected e) => let (t2, r) := h e in ((t ++ t2)%list, r)
  end.

Definition emit (ev : Event) : M unit := ([ev], Resolved tt).

(** A synchronous expression that may throw. *)
Definition eval {A} (o : outcome A) : M A := ([], o).

Declare Scope worker_scope.
Delimit Scope worker_scope with worker.
Notation "x <- m ;; k" := (bind m (fun x => k))
  (at level 100, m at next level, right associativity) : worker_scope.
Notation "m ;;; k" := (bind m (fun _ => k))
  (at level 100, right associativity) : worker_scope.
Local Open Scope worker_scope.

Definition obind {A B} (o : outcome A) (k : A -> outcome B) : outcome B :=
  match o with
  | Resolved a => k a
  | Rejected e => Rejected e
  end.

(** ** JavaScript operations used by the relay *)

(** [await request.json()] *)
Definition request_json (request : Request) : M json :=
  eval (match body_json request with
        | Some v => Resolved v
        | None => Rejected SyntaxError
        end).

(** [const { messages = [] } = v]: the default applies when the property
    is [undefined]. *)
Definition destructure_messages (v : json) : outcome json :=
  obind (get_property v "messages") (fun m =>
    match m with
    | Some x => Resolved x
    | None => Resolved (JArray [])
    end).

(** [Array.prototype.some]: elements in order, stopping at the first one
    the callback accepts; an exception of the callback propagates. *)
Fixpoint array_some (cb : json -> outcome bool) (items : list json) : outcome bool :=
  match items with
  | [] => Resolved false
  | x :: rest =>
      obind (cb x) (fun b => if b then Resolved true else array_some cb rest)
  end.

(** [v.some(cb)]: only an array has a callable [some]. *)
Definition some (v : json) (cb : json -> outcome bool) : outcome bool :=
  match v with
  | JArray items => array_some cb items
  | _ => Rejected TypeError
  end.

(** [v.unshift(x)], giving the array after the mutation. *)
Definition unshift (v : json) (x : json) : outcome json :=
  match v with
  | JArray items => Resolved (JArray (x :: items))
  | _ => Rejected TypeError
  end.

(** [(msg) => msg.role === "system"] *)
Definition role_is_system (msg : json) : outcome bool :=
  obind (get_property msg "role") (fun role =>
    Resolved (strict_eq_string role "system")).

(** [{ role: "system", content: SYSTEM_PROMPT }] *)
Definition system_message : json :=
  JObject [("role", JString "system"); ("content", JString SYSTEM_PROMPT)].

Definition AI_call (env : Env) (model : string) (inputs : AiInputs)
    (options : json) : M ReadableStream :=
  ([AiRun model inputs options], AI_run env model inputs options).

Definition ASSETS_call (env : Env) (request : Request) : M Response :=
  ([AssetsFetch request], ASSETS_fetch env request).

(** ** The program *)

Definition error_response : Response :=
  new_Response
    (BodyText (JSON_stringify (JObject [("error", JString "Failed to process request")])))
    (Some 500)
    [("content-type", "application/json")].

Definition handleChatRequest (request : Request) (env : Env) : M Response :=
  try_catch
    (v <- request_json request ;;
     messages <- eval (destructure_messages v) ;;
     has_system <- eval (some messages role_is_system) ;;
     messages <- (if negb has_system
                  then eval (unshift messages system_message)
                  else ret messages) ;;
     stream <- AI_call env MODEL_ID
                 {| messages := messages; max_tokens := 1024; stream := true |}
                 (JObject []) ;;
     ret (new_Response (BodyStream stream) None
            [("content-type", "text/event-stream; charset=utf-8");
             ("cache-control", "no-cache");
             ("connection", "keep-alive")]))
    (fun error =>
       emit (ConsoleError "Error processing chat request:" error) ;;;
       ret error_response).

Definition fetch (request : Request) (env : Env) : M Response :=
  let url := url request in
  if String.eqb (pathname url) "/" || negb (String.prefix "/api/" (pathname url)) then
    ASSETS_call env request
  else if String.eqb (pathname url) "/api/chat" then
    if String.eqb (method request) "POST" then
      handleChatRequest request env
    else
      ret (new_Response (BodyText "Method not allowed") (Some 405) [])
  else
    ret (new_Response (BodyText "Not found") (Some 404) []).

(** ** Vocabulary of the specification *)

(** The message list a parsed body carries: its [messages] member when that
    is an array, the empty list when there is no such member. *)
Definition original_messages (v : json) : option (list json) :=
  match v with
  | JNull => None
  | JObject members =>
      match lookup_member "messages" members with
      | None => Some []
      | Some (JArray items) => Some items
      | Some _ => None
      end
  | _ => Some []
  end.

(** An entry whose [role] is the string [system]. *)
Definition is_system_entry (msg : json) : bool :=
  match msg with
  | JObject members => strict_eq_string (lookup_member "role" members) "system"
  | _ => false
  end.

Definition has_system_entry (items : list json) : bool :=
  existsb is_system_entry items.

(** The list the relay is to hand to inference for an original list. *)
Definition resolved_messages (items : list json) : list json :=
  if has_system_entry items then items else system_message :: items.

(** The two responses of the relay. *)
Definition stream_response (s : ReadableStream) : Response :=
  {| status := 200;
     headers := [("content-type", "text/event-stream; charset=utf-8");
                 ("cache-control", "no-cache");
                 ("connection", "keep-alive")];
     body := BodyStream s |}.

Definition error_text : string :=
  "{" ++ quoted "error" ++ ":" ++ quoted "Failed to process request" ++ "}".

(** The call the relay makes for an original list. *)
Definition inference_inputs (items : list json) : AiInputs :=
  {| messages := JArray (resolved_messages items);
     max_tokens := 1024;
     stream := true |}.

Definition is_object (v : json) : bool :=
  match v with
  | JObject _ => true
  | _ => false
  end.

Definition logged (e : error) : Event :=
  ConsoleError "Error processing chat request:" e.

Definition trace {A} (m : M A) : list Event := fst m.
Definition result {A} (m : M A) : outcome A := snd m.

(** The scan of line 90 on the elements of [messages]. *)
Definition scan (items : list json) : outcome bool :=
  array_some role_is_system items.

(** The three kinds of run of the relay: it failed before calling
    inference; it called inference once, which gave a stream; it called
    inference once, which failed. *)
Inductive relay_run (request : Request) (env : Env) : M Response -> Prop :=
| run_unparsable :
    body_json request = None ->
    relay_run request env ([logged SyntaxError], Resolved error_response)
| run_no_list (v : json) :
    body_json request = Some v ->
    original_messages v = None ->
    relay_run request env ([logged TypeError], Resolved error_response)
| run_scan_failed (v : json) (items : list json) (e : error) :
    body_json request = Some v ->
    original_messages v = Some items ->
    scan items = Rejected e ->
    relay_run request env ([logged e], Resolved error_response)
| run_streamed (v : json) (items : list json) (s : ReadableStream) :
    body_json request = Some v ->
    original_messages v = Some items ->
    scan items = Resolved (has_system_entry items) ->
    AI_run env MODEL_ID (inference_inputs items) (JObject []) = Resolved s ->
    relay_run request env
      ([AiRun MODEL_ID (inference_inputs items) (JObject [])],
       Resolved (stream_response s))
| run_inference_failed (v : json) (items : list json) (e : error) :
    body_json request = Some v ->
    original_messages v = Some items ->
    scan items = Resolved (has_system_entry items) ->
    AI_run env MODEL_ID (inference_inputs items) (JObject []) = Rejected e ->
    relay_run request env
      ([AiRun MODEL_ID (inference_inputs items) (JObject []); logged e],
       Resolved error_response).

(** ** Sample requests and bindings *)

Definition chat_url : URL :=
  {| origin := "https://chat.example"; pathname := "/api/chat"; search := "" |}.

Definition user_message (text : string) : json :=
  JObject [("role", JString "user"); ("content", JString text)].

Definition post_chat (payload : option json) : Request :=
  {| url := chat_url; method := "POST"; mode := "cors"; body_json := payload |}.

Definition sample_chat_body : json :=
  JObject [("messages", JArray [user_message "hello"])].

Definition sample_stream : ReadableStream :=
  [Byte.x64; Byte.x61; Byte.x74; Byte.x61; Byte.x3a; Byte.x20; Byte.x68; Byte.x69].

Definition not_found : Response :=
  new_Response (BodyText "no such asset") (Some 404) [].

(** Bindings whose inference call always gives [sample_stream]. *)
Definition env_streaming : Env :=
  {| AI_run := fun _ _ _ => Resolved sample_stream;
     ASSETS_fetch := fun _ => Resolved not_found |}.

(** Bindings whose inference call always fails. *)
Definition env_failing : Env :=
  {| AI_run := fun _ _ _ => Rejected (HostError "inference unavailable");
     ASSETS_fetch := fun _ => Resolved not_found |}.

(** ** Further vocabulary *)

Definition is_inference_call (ev : Event) : bool :=
  match ev with
  | AiRun _ _ _ => true
  | _ => false
  end.

(** A body whose [messages] member is the array of [items]. *)
Definition chat_body (items : list json) : json :=
  JObject [("messages", JArray items)].

Definition given_system : json :=
  JObject [("role", JString "system"); ("content", JString "Be brief.")].

(** Bindings whose asset call fails. *)
Definition env_assets_down : Env :=
  {| AI_run := fun _ _ _ => Resolved sample_stream;
     ASSETS_fetch := fun _ => Rejected (HostError "assets unavailable") |}.

End Worker.

(** * The offline cache shell ([sw.js]) *)

Module ServiceWorker.

Definition CACHE_NAME : string := "ben-chat-v1".

Definition STATIC_ASSETS : list string :=
  ["/"; "/index.html"; "/chat.js"; "/manifest.json"].

(** ** The browser side *)

(** One cache bucket: stored responses by request URL. *)
Abbreviation Cache := (gmap string Response).

(** [caches]: the buckets by name, in creation order (the order in which
    [caches.keys()] lists them and [caches.match] searches them). *)
Definition CacheStorage : Type := list (string * Cache).

(** What the worker's global scope provides besides [caches]: the origin
    against which URL strings are resolved, and the network behind the
    global [fetch]. *)
Record Platform : Type := mkPlatform {
  location_origin : string;
  network : Request -> outcome Response
}.

Inductive Event : Type :=
| NetworkFetch (request : Request)
| CachesMatch (key : string)
| CachesOpen (name : string)
| CachesKeys
| CachesDelete (name : string)
| CachePut (name : string) (key : string)
| SkipWaiting
| ClientsClaim.

(** The events that read or write cache storage. *)
Definition touches_cache (ev : Event) : bool :=
  match ev with
  | NetworkFetch _ | SkipWaiting | ClientsClaim => false
  | _ => true
  end.

(** A promise chain of the worker: run on the cache storage, it makes calls,
    leaves a cache storage, and settles. *)
Definition P (A : Type) : Type :=
  CacheStorage -> (list Event * CacheStorage * outcome A)%type.

Definition ret {A} (a : A) : P A := fun caches => ([], caches, Resolved a).

Definition reject {A} (e : error) : P A := fun caches => ([], caches, Rejected e).

(** [p.then(k)] *)
Definition then_ {A B} (p : P A) (k : A -> P B) : P B := fun caches =>
  match p caches with
  | (t, caches1, Resolved a) =>
      let '(t2, caches2, r) := k a caches1 in ((t ++ t2)%list, caches2, r)
  | (t, caches1, Rejected e) => (t, caches1, Rejected e)
  end.

(** [p.catch(h)] *)
Definition catch_ {A} (p : P A) (h : error -> P A) : P A := fun caches =>
  match p caches with
  | (t, caches1, Resolved a) => (t, caches1, Resolved a)
  | (t, caches1, Rejected e) =>
      let '(t2, caches2, r) := h e caches1 in ((t ++ t2)%list, caches2, r)
  end.

(** A promise nobody waits for or returns: its effects happen, how it
    settles is dropped. *)
Definition detach {A} (p : P A) : P unit := fun caches =>
  let '(t, caches1, _) := p caches in (t, caches1, Resolved tt).

(** A promise handed to [event.waitUntil] or [event.respondWith]: the
    listener itself goes on, and the event receives how the promise
    settled. *)
Definition settle {A} (p : P A) : P (outcome A) := fun caches =>
  let '(t, caches1, r) := p caches in (t, caches1, Resolved r).

Definition emit (ev : Event) : P unit := fun caches => ([ev], caches, Resolved tt).

Declare Scope sw_scope.
Delimit Scope sw_scope with sw.
Notation "x <- p ;; k" := (then_ p (fun x => k))
  (at level 100, p at next level, right associativity) : sw_scope.
Notation "p ;;; k" := (then_ p (fun _ => k))
  (at level 100, right associativity) : sw_scope.
Local Open Scope sw_scope.

(** The request a URL string of the script stands for: the strings of
    [sw.js] are absolute paths, resolved against the worker's origin. *)
Definition request_of_string (pf : Platform) (path : string) : Request :=
  {| url := {| origin := location_origin pf; pathname := path; search := "" |};
     method := "GET";
     mode := "cors";
     body_json := None |}.

(** The global [fetch(request)]. *)
Definition fetch (pf : Platform) (request : Request) : P Response := fun caches =>
  ([NetworkFetch request], caches, network pf request).

(** [cache.match]: only a GET request matches, by its URL. *)
Definition cache_lookup (request : Request) (c : Cache) : option Response :=
  if String.eqb (method request) "GET" then c !! href (url request) else None.

(** [caches.match]: the first bucket, in creation order, that matches. *)
Fixpoint storage_match (request : Request) (caches : CacheStorage) : option Response :=
  match caches with
  | [] => None
  | (_, c) :: rest =>
      match cache_lookup request c with
      | Some r => Some r
      | None => storage_match request rest
      end
  end.

Definition caches_match (request : Request) : P (option Response) := fun caches =>
  ([CachesMatch (href (url request))], caches, Resolved (storage_match request caches)).

Definition has_bucket (name : string) (caches : CacheStorage) : bool :=
  existsb (fun b => String.eqb (fst b) name) caches.

(** [caches.open(name)]: the bucket is created, empty and last, when there
    is none of that name.  The handle is the bucket's name. *)
Definition caches_open (name : string) : P string := fun caches =>
  ([CachesOpen name],
   if has_bucket name caches then caches else (caches ++ [(name, ∅)])%list,
   Resolved name).

Definition caches_keys : P (list string) := fun caches =>
  ([CachesKeys], caches, Resolved (List.map fst caches)).

(** [caches.delete(name)] resolves to whether there was such a bucket. *)
Definition caches_delete (name : string) : P bool := fun caches =>
  ([CachesDelete name],
   List.filter (fun b => negb (String.eqb (fst b) name)) caches,
   Resolved (has_bucket name caches)).

Definition store (name key : string) (r : Response) (caches : CacheStorage)
    : CacheStorage :=
  List.map (fun b => if String.eqb (fst b) name
                     then (fst b, <[key := r]> (snd b))
                     else b) caches.

(** *** What the cache refuses *)

(** Header names are compared without regard to case. *)
Definition lower_ascii (c : ascii) : ascii :=
  let n := N_of_ascii c in
  if (65 <=? n)%N && (n <=? 90)%N then ascii_of_N (n + 32) else c.

Fixpoint lower (s : string) : string :=
  match s with
  | EmptyString => EmptyString
  | String c rest => String (lower_ascii c) (lower rest)
  end.

(** Space and tab, the blanks around a field value. *)
Definition is_blank (c : ascii) : bool :=
  Ascii.eqb c " "%char || Ascii.eqb c "009"%char.

Fixpoint trim_left (s : string) : string :=
  match s with
  | EmptyString => EmptyString
  | String c rest => if is_blank c then trim_left rest else s
  end.

Fixpoint trim_right (s : string) : string :=
  match s with
  | EmptyString => EmptyString
  | String c rest =>
      match trim_right rest with
      | EmptyString => if is_blank c then EmptyString else String c EmptyString
      | kept => String c kept
      end
  end.

Definition trim (s : string) : string := trim_right (trim_left s).

(** The pieces of [s] between the occurrences of [sep]. *)
Fixpoint split_on (sep : ascii) (s : string) : list string :=
  match s with
  | EmptyString => [EmptyString]
  | String c rest =>
      if Ascii.eqb c sep then EmptyString :: split_on sep rest
      else match split_on sep rest with
           | [] => [String c EmptyString]
           | piece :: more => String c piece :: more
           end
  end.

(** A [Vary] header of the response has [*] among its field values. *)
Definition varies_on_all (r : Response) : bool :=
  existsb
    (fun h => String.eqb (lower (fst h)) "vary" &&
              existsb (fun v => String.eqb (trim v) "*") (split_on ","%char (snd h)))
    (headers r).

(** The scheme of the URL is http or https. *)
Definition http_origin (o : string) : bool :=
  String.prefix "http://" o || String.prefix "https://" o.

(** A request the cache takes as a key: an http or https URL, fetched
    with GET. *)
Definition cacheable (request : Request) : bool :=
  http_origin (origin (url request)) && String.eqb (method request) "GET".

(** The write in which both [cache.put] and [cache.addAll] end. *)
Definition batch_put (name : string) (request : Request) (response : Response)
    : P unit := fun caches =>
  ([CachePut name (href (url request))],
   store name (href (url request)) response caches,
   Resolved tt).

(** [cache.put(request, response)] on the bucket called [name]: rejected,
    with nothing stored, when the request is no cacheable key, when the
    response is partial (206) and when its [Vary] header names [*]. *)
Definition cache_put (name : string) (request : Request) (response : Response)
    : P unit :=
  if cacheable request && negb (status response =? 206) &&
     negb (varies_on_all response)
  then batch_put name request response
  else fun caches =>
         ([CachePut name (href (url request))], caches, Rejected TypeError).

(** A response [cache.addAll] accepts: status in the range 200 to 299, not
    206, and no [Vary] header that names [*]. *)
Definition storable (r : Response) : bool :=
  (200 <=? status r) && (status r <=? 299) && negb (status r =? 206) &&
  negb (varies_on_all r).

(** First half of [cache.addAll]: every request is fetched; a failed fetch
    or a response that is not storable rejects the whole call.  The
    requests are taken one after the other, up to the first that fails. *)
Fixpoint fetch_all (pf : Platform) (requests : list Request)
    : P (list (Request * Response)) :=
  match requests with
  | [] => ret []
  | request :: rest =>
      response <- fetch pf request ;;
      if storable response then
        others <- fetch_all pf rest ;;
        ret ((request, response) :: others)
      else reject TypeError
  end.

(** Second half: the fetched responses are stored. *)
Fixpoint put_all (name : string) (entries : list (Request * Response)) : P unit :=
  match entries with
  | [] => ret tt
  | (request, response) :: rest =>
      batch_put name request response ;;; put_all name rest
  end.

(** [cache.addAll(urls)]: refused at once when one of the requests is no
    cacheable key; otherwise everything is fetched, then everything is
    stored. *)
Definition cache_addAll (pf : Platform) (name : string) (urls : list string)
    : P unit :=
  let requests := List.map (request_of_string pf) urls in
  if forallb cacheable requests then
    entries <- fetch_all pf requests ;;
    put_all name entries
  else reject TypeError.

(** [Promise.all] over the promises that [f] starts for the items. *)
Fixpoint promise_all {A B} (f : A -> P B) (items : list A) : P (list B) :=
  match items with
  | [] => ret []
  | x :: rest =>
      y <- f x ;;
      ys <- promise_all f rest ;;
      ret (y :: ys)
  end.

(** ** The three listeners *)

(** The value of each listener is what its event received: how the promise
    given to [waitUntil] or [respondWith] settled.  A promise chain is run
    to its end at the point where the listener creates it, so what a
    listener calls after handing the chain over ([skipWaiting],
    [clients.claim]) comes after the chain's calls in the trace. *)

Definition on_install (pf : Platform) : P (outcome unit) :=
  waited <- settle
    (cache <- caches_open CACHE_NAME ;;
     catch_ (cache_addAll pf cache STATIC_ASSETS) (fun _ => ret tt)) ;;
  emit SkipWaiting ;;;
  ret waited.

Definition on_activate : P (outcome (list bool)) :=
  waited <- settle
    (keys <- caches_keys ;;
     promise_all caches_delete
       (List.filter (fun k => negb (String.eqb k CACHE_NAME)) keys)) ;;
  emit ClientsClaim ;;;
  ret waited.

(** [respondWith] receives a response, or [undefined] ([None]). *)
Definition on_fetch (pf : Platform) (request : Request)
    : P (outcome (option Response)) :=
  let url := url request in
  if String.prefix "/api/" (pathname url) then
    settle (response <- fetch pf request ;; ret (Some response))
  else
    settle
      (cached <- caches_match request ;;
       match cached with
       | Some hit => ret (Some hit)
       | None =>
           catch_
             (response <- fetch pf request ;;
              (if String.eqb (method request) "GET" && (status response =? 200)
               then detach (cache <- caches_open CACHE_NAME ;;
                            cache_put cache request response)
               else ret tt) ;;;
              ret (Some response))
             (fun _ =>
                if String.eqb (mode request) "navigate"
                then caches_match (request_of_string pf "/index.html")
                else ret None)
       end).

(** Projections of a run. *)
Definition trace_of {A} (run : list Event * CacheStorage * outcome A) : list Event :=
  fst (fst run).
Definition caches_of {A} (run : list Event * CacheStorage * outcome A) : CacheStorage :=
  snd (fst run).
Definition result_of {A} (run : list Event * CacheStorage * outcome A) : outcome A :=
  snd run.

(** The bucket of a given name. *)
Fixpoint bucket (name : string) (caches : CacheStorage) : option Cache :=
  match caches with
  | [] => None
  | (n, c) :: rest => if String.eqb n name then Some c else bucket name rest
  end.

(** ** Vocabulary of the specification *)

(** The buckets whose name is none of [names]. *)
Definition without (names : list string) (caches : CacheStorage) : CacheStorage :=
  List.filter (fun b => negb (existsb (String.eqb (fst b)) names)) caches.

(** Storing the asset at [path] fails: its fetch fails, or its response is
    one that [addAll] refuses. *)
Definition asset_fails (pf : Platform) (path : string) : bool :=
  match network pf (request_of_string pf path) with
  | Resolved r => negb (storable r)
  | Rejected _ => true
  end.

(** What cache storage holds in the bucket [name] under [key]. *)
Definition stored (name key : string) (caches : CacheStorage) : option Response :=
  match bucket name caches with
  | Some c => c !! key
  | None => None
  end.

Definition is_put (ev : Event) : bool :=
  match ev with
  | CachePut _ _ => true
  | _ => false
  end.

(** The key under which the fallback document is looked up. *)
Definition index_key (pf : Platform) : string :=
  href (url (request_of_string pf "/index.html")).

(** ** Sample platform, requests and cache storage *)

Definition app_origin : string := "https://chat.example".

(** A platform with no network. *)
Definition offline : Platform :=
  {| location_origin := app_origin;
     network := fun _ => Rejected (HostError "offline") |}.

Definition page (text : string) : Response :=
  new_Response (BodyText text) None [("content-type", "text/html")].

(** A platform that serves every shell asset but [/manifest.json]. *)
Definition no_manifest : Platform :=
  {| location_origin := app_origin;
     network := fun request =>
       if String.eqb (pathname (url request)) "/manifest.json"
       then Resolved (new_Response (BodyText "not found") (Some 404) [])
       else Resolved (page "shell") |}.

(** A platform that serves every request. *)
Definition serving : Platform :=
  {| location_origin := app_origin;
     network := fun _ => Resolved (page "shell") |}.

Definition get_request (path request_mode : string) : Request :=
  {| url := {| origin := app_origin; pathname := path; search := "" |};
     method := "GET";
     mode := request_mode;
     body_json := None |}.

Definition index_url : string := "https://chat.example/index.html".

(** The current bucket alone, holding the root document. *)
Definition shell_only : CacheStorage :=
  [(CACHE_NAME, {[ index_url := page "current shell" ]})].

(** The current bucket behind an older bucket that holds a root document
    of its own. *)
Definition with_older_bucket : CacheStorage :=
  [("ben-chat-v0", {[ index_url := page "old shell" ]});
   (CACHE_NAME, {[ index_url := page "current shell" ]})].

(** ** Further vocabulary *)

Definition entry_key (e : Request * Response) : string := href (url (fst e)).

(** A bucket after [entries] have been stored in it, in order. *)
Definition insert_all (entries : list (Request * Response)) (c : Cache) : Cache :=
  List.fold_left (fun acc e => <[entry_key e := snd e]> acc) entries c.

(** The response that [entries], stored in order, leave under [key]. *)
Fixpoint latest (key : string) (entries : list (Request * Response))
    : option Response :=
  match entries with
  | [] => None
  | e :: rest =>
      match latest key rest with
      | Some r => Some r
      | None => if String.eqb (entry_key e) key then Some (snd e) else None
      end
  end.

(** Cache storage after [entries] have been stored in the bucket [name]. *)
Definition store_all (name : string) (entries : list (Request * Response))
    (caches : CacheStorage) : CacheStorage :=
  List.map (fun b => if String.eqb (fst b) name
                     then (fst b, insert_all entries (snd b))
                     else b) caches.

(** Cache storage after [caches.open(name)]. *)
Definition opened (name : string) (caches : CacheStorage) : CacheStorage :=
  if has_bucket name caches then caches else (caches ++ [(name, ∅)])%list.

(** The key of a URL string of the script. *)
Definition shell_key (pf : Platform) (path : string) : string :=
  href (url (request_of_string pf path)).

(** The requests of [paths] with the responses the network gives them. *)
Definition shell_entries (pf : Platform) (paths : list string)
    : list (Request * Response) :=
  List.flat_map
    (fun path =>
       match network pf (request_of_string pf path) with
       | Resolved r => [(request_of_string pf path, r)]
       | Rejected _ => []
       end) paths.

(** The shell assets are cacheable keys: so they are when the worker's
    own origin is http or https. *)
Definition shell_cacheable (pf : Platform) : bool :=
  forallb cacheable (List.map (request_of_string pf) STATIC_ASSETS).

(** What install stores: all the shell assets, or none. *)
Definition installed_entries (pf : Platform) : list (Request * Response) :=
  if shell_cacheable pf && negb (existsb (asset_fails pf) STATIC_ASSETS)
  then shell_entries pf STATIC_ASSETS
  else [].

(** What [cache.put] accepts. *)
Definition put_accepts (request : Request) (response : Response) : bool :=
  cacheable request && negb (status response =? 206) &&
  negb (varies_on_all response).

(** The cache storages at which a fetch event can reach the worker.  The
    browser hands fetch events to a worker only once its activate listener
    has run to the end; from then on, cache storage is what the worker's
    own listeners make of it. *)
Inductive serving_storage : CacheStorage -> Prop :=
| serving_activated (caches : CacheStorage) :
    serving_storage (caches_of (on_activate caches))
| serving_fetched (pf : Platform) (request : Request) (caches : CacheStorage) :
    serving_storage caches ->
    serving_storage (caches_of (on_fetch pf request caches))
| serving_installed (pf : Platform) (caches : CacheStorage) :
    serving_storage caches ->
    serving_storage (caches_of (on_install pf caches)).

(** Every bucket bears the current name. *)
Definition only_current (caches : CacheStorage) : Prop :=
  Forall (fun b : string * Cache => fst b = CACHE_NAME) caches.

(** A response the cache refuses, and a platform that serves it. *)
Definition wildcard_page : Response :=
  new_Response (BodyText "shell") None
    [("content-type", "text/html"); ("Vary", "Accept-Encoding, *")].

Definition varying : Platform :=
  {| location_origin := app_origin;
     network := fun _ => Resolved wildcard_page |}.

Definition is_delete (ev : Event) : bool :=
  match ev with
  | CachesDelete _ => true
  | _ => false
  end.

Definition is_network (ev : Event) : bool :=
  match ev with
  | NetworkFetch _ => true
  | _ => false
  end.

End ServiceWorker.

(** * Properties of the edge worker *)

Module WorkerProofs.
Import Worker.
Local Open Scope worker_scope.

(** ** The callback of [some] *)

Lemma role_is_system_null : role_is_system JNull = Rejected TypeError.
Proof. reflexivity. Qed.

Lemma role_is_system_entry (msg : json) :
  msg <> JNull -> role_is_system msg = Resolved (is_system_entry msg).
Proof.
  intros Hmsg. destruct msg; try reflexivity. congruence.
Qed.

Lemma role_is_system_resolved (msg : json) (b : bool) :
  role_is_system msg = Resolved b -> b = is_system_entry msg.
Proof.
  destruct msg; simpl; intros H; inversion H; reflexivity.
Qed.

(** When [some] returns, it returns whether the list has a system entry. *)
Lemma array_some_resolved (items : list json) (b : bool) :
  array_some role_is_system items = Resolved b -> b = has_system_entry items.
Proof.
  revert b. induction items as [|x rest IH]; intros b H; simpl in H.
  - inversion H. reflexivity.
  - destruct (role_is_system x) as [bx|e] eqn:Hx; simpl in H; [|discriminate].
    apply role_is_system_resolved in Hx. subst bx.
    unfold has_system_entry. simpl.
    destruct (is_system_entry x); simpl.
    + inversion H. reflexivity.
    + apply IH. exact H.
Qed.

(** [some] returns on every list without a [null] entry. *)
Lemma array_some_total (items : list json) :
  Forall (fun msg => msg <> JNull) items ->
  array_some role_is_system items = Resolved (has_system_entry items).
Proof.
  induction 1 as [|x rest Hx _ IH]; [reflexivity|].
  simpl. rewrite (role_is_system_entry x Hx). simpl.
  unfold has_system_entry. simpl.
  destruct (is_system_entry x); [reflexivity|exact IH].
Qed.

(** ** The relay, case by case *)

Lemma original_messages_destructure (v : json) (items : list json) :
  original_messages v = Some items ->
  destructure_messages v = Resolved (JArray items).
Proof.
  destruct v; simpl; intros H; try discriminate;
    try (inversion H; reflexivity).
  unfold destructure_messages. simpl.
  destruct (lookup_member "messages" members) as [x|]; simpl.
  - destruct x; try discriminate. inversion H. reflexivity.
  - inversion H. reflexivity.
Qed.

Lemma original_messages_none (v : json) :
  original_messages v = None ->
  destructure_messages v = Rejected TypeError \/
  exists m, destructure_messages v = Resolved m /\
            some m role_is_system = Rejected TypeError.
Proof.
  destruct v; simpl; intros H; try discriminate.
  - left. reflexivity.
  - right. unfold destructure_messages. simpl.
    destruct (lookup_member "messages" members) as [x|]; [|discriminate].
    exists x. split; [reflexivity|].
    destruct x; try reflexivity. discriminate.
Qed.

(** Laws of the computation type used below. *)
Lemma bind_resolved {A B} (a : A) (k : A -> M B) :
  bind (eval (Resolved a)) k = k a.
Proof. unfold bind, eval. destruct (k a). reflexivity. Qed.

Lemma bind_rejected {A B} (e : error) (k : A -> M B) :
  bind (eval (Rejected e)) k = eval (Rejected e).
Proof. reflexivity. Qed.

Lemma try_catch_rejected {A} (e : error) (h : error -> M A) :
  try_catch (eval (Rejected e)) h = h e.
Proof. unfold try_catch, eval. destruct (h e). reflexivity. Qed.

Lemma relay_handler (e : error) :
  (emit (logged e) ;;; ret error_response) = ([logged e], Resolved error_response).
Proof. reflexivity. Qed.

(** The relay once the list and its scan are known. *)
Lemma relay_after_scan (env : Env) (items : list json) :
  (messages <- (if negb (has_system_entry items)
                then eval (unshift (JArray items) system_message)
                else ret (JArray items)) ;;
   stream <- AI_call env MODEL_ID
               {| messages := messages; max_tokens := 1024; stream := true |}
               (JObject []) ;;
   ret (new_Response (BodyStream stream) None
          [("content-type", "text/event-stream; charset=utf-8");
           ("cache-control", "no-cache");
           ("connection", "keep-alive")]))
  = ([AiRun MODEL_ID (inference_inputs items) (JObject [])],
     match AI_run env MODEL_ID (inference_inputs items) (JObject []) with
     | Resolved s => Resolved (stream_response s)
     | Rejected e => Rejected e
     end).
Proof.
  unfold inference_inputs, resolved_messages.
  destruct (has_system_entry items); simpl;
    match goal with |- context [AI_run ?a ?b ?c ?d] => destruct (AI_run a b c d) end;
    reflexivity.
Qed.

(** Every run of the relay is of one of the kinds of [relay_run]. *)
Lemma handleChatRequest_run (request : Request) (env : Env) :
  relay_run request env (handleChatRequest request env).
Proof.
  unfold handleChatRequest, request_json.
  destruct (body_json request) as [v|] eqn:Hbody.
  2:{ rewrite bind_rejected, try_catch_rejected, relay_handler.
      apply run_unparsable. exact Hbody. }
  rewrite bind_resolved.
  destruct (original_messages v) as [items|] eqn:Horig.
  - rewrite (original_messages_destructure v items Horig), bind_resolved.
    change (some (JArray items) role_is_system) with (scan items).
    destruct (scan items) as [b|e] eqn:Hscan.
    + pose proof (array_some_resolved items b Hscan) as Hb. subst b.
      rewrite bind_resolved, relay_after_scan.
      destruct (AI_run env MODEL_ID (inference_inputs items) (JObject []))
        as [s|e] eqn:Hai; simpl.
      * eapply run_streamed; eauto.
      * eapply run_inference_failed; eauto.
    + rewrite bind_rejected, try_catch_rejected, relay_handler.
      eapply run_scan_failed; eauto.
  - destruct (original_messages_none v Horig) as [Hd|[m [Hd Hs]]]; rewrite Hd.
    + rewrite bind_rejected, try_catch_rejected, relay_handler.
      eapply run_no_list; eauto.
    + rewrite bind_resolved, Hs, bind_rejected, try_catch_rejected, relay_handler.
      eapply run_no_list; eauto.
Qed.

(** The router hands a POST of [/api/chat] to the relay. *)
Lemma fetch_chat_post (request : Request) (env : Env) :
  pathname (url request) = "/api/chat" ->
  method request = "POST" ->
  fetch request env = handleChatRequest request env.
Proof.
  intros Hpath Hmethod. unfold fetch. rewrite Hpath, Hmethod. reflexivity.
Qed.

(** ** The router *)

(** C4: a request whose path is [/] or does not start with [/api/] is
    answered by the static-asset binding alone: the router makes that one
    call and settles exactly as it does, response or failure unchanged. *)
Theorem C4_static_pass_through (request : Request) (env : Env) :
  pathname (url request) = "/" \/
  String.prefix "/api/" (pathname (url request)) = false ->
  fetch request env = ([AssetsFetch request], ASSETS_fetch env request).
Proof.
  intros [Hroot|Hnot]; unfold fetch.
  - rewrite Hroot. reflexivity.
  - rewrite Hnot, orb_true_r. reflexivity.
Qed.

Lemma C4_static_pass_through_witness :
  fetch {| url := {| origin := "https://chat.example"; pathname := "/chat.js";
                     search := "?v=2" |};
           method := "GET"; mode := "no-cors"; body_json := None |} env_streaming
  = ([AssetsFetch {| url := {| origin := "https://chat.example";
                               pathname := "/chat.js"; search := "?v=2" |};
                     method := "GET"; mode := "no-cors"; body_json := None |}],
     Resolved not_found).
Proof.
  apply (C4_static_pass_through _ env_streaming). right. reflexivity.
Defined.

Lemma api_path_not_root (path : string) :
  String.prefix "/api/" path = true -> String.eqb path "/" = false.
Proof.
  intros H. destruct (String.eqb_spec path "/") as [->|]; [|reflexivity].
  discriminate H.
Qed.

(** C5: under [/api/], a request for [/api/chat] with a method other than
    POST gets 405 with body [Method not allowed], and a request for any
    other path gets 404 with body [Not found], whatever its method; no
    collaborator is called. *)
Theorem C5_api_errors (request : Request) (env : Env) :
  String.prefix "/api/" (pathname (url request)) = true ->
  (pathname (url request) = "/api/chat" -> method request <> "POST" ->
   fetch request env =
     ([], Resolved {| status := 405; headers := [];
                      body := BodyText "Method not allowed" |})) /\
  (pathname (url request) <> "/api/chat" ->
   fetch request env =
     ([], Resolved {| status := 404; headers := [];
                      body := BodyText "Not found" |})).
Proof.
  intros Hapi. pose proof (api_path_not_root _ Hapi) as Hroot.
  unfold fetch. rewrite Hroot, Hapi. simpl. split.
  - intros Hpath Hmethod. rewrite Hpath. simpl.
    destruct (String.eqb_spec (method request) "POST"); [contradiction|reflexivity].
  - intros Hpath.
    destruct (String.eqb_spec (pathname (url request)) "/api/chat");
      [contradiction|reflexivity].
Qed.

Lemma C5_api_errors_witness :
  fetch {| url := chat_url; method := "GET"; mode := "cors"; body_json := None |}
        env_streaming =
    ([], Resolved {| status := 405; headers := [];
                     body := BodyText "Method not allowed" |}) /\
  fetch {| url := {| origin := "https://chat.example"; pathname := "/api/unknown";
                     search := "" |};
           method := "POST"; mode := "cors"; body_json := Some JNull |}
        env_streaming =
    ([], Resolved {| status := 404; headers := [];
                     body := BodyText "Not found" |}).
Proof.
  split.
  - apply (C5_api_errors
             {| url := chat_url; method := "GET"; mode := "cors"; body_json := None |}
             env_streaming); [reflexivity|reflexivity|discriminate].
  - apply (C5_api_errors
             {| url := {| origin := "https://chat.example";
                          pathname := "/api/unknown"; search := "" |};
                method := "POST"; mode := "cors"; body_json := Some JNull |}
             env_streaming); [reflexivity|discriminate].
Defined.

(** ** The chat relay *)

(** Case analysis on the run of the relay for [request] and [env], one
    goal for each kind of [relay_run]. *)
Ltac relay_cases request env :=
  let Hrun := fresh "Hrun" in
  let run := fresh "run" in
  let Erun := fresh "Erun" in
  pose proof (handleChatRequest_run request env) as Hrun;
  remember (handleChatRequest request env) as run eqn:Erun; clear Erun;
  destruct Hrun as [Hb|parsed Hb Ho|parsed list err Hb Ho Hs
                    |parsed list given Hb Ho Hs Hai|parsed list err Hb Ho Hs Hai].

(** A trace that holds one logged failure holds no inference call. *)
Ltac no_call Hin := simpl in Hin; destruct Hin as [Hin|[]]; discriminate Hin.

(** The inference call of a trace, when it is its first event. *)
Ltac first_call Hin :=
  simpl in Hin;
  first [ destruct Hin as [Hin|[Hin|[]]]; [|discriminate Hin]
        | destruct Hin as [Hin|[]] ];
  inversion Hin; subst.

Section Relay.

Variable request : Request.
Variable env : Env.

(** An inference call seen in a run of the relay is the one call for the
    original list of the body. *)
Lemma relay_call_inputs (v : json)
    (model : string) (inputs : AiInputs) (options : json) :
  body_json request = Some v ->
  In (AiRun model inputs options) (trace (handleChatRequest request env)) ->
  exists items,
    original_messages v = Some items /\
    model = MODEL_ID /\ inputs = inference_inputs items /\ options = JObject [].
Proof.
  intros Hbody Hin. relay_cases request env;
    [no_call Hin|no_call Hin|no_call Hin|first_call Hin|first_call Hin];
    exists list; repeat split; congruence.
Qed.

(** On a list without [null] entries the relay reaches the inference call,
    and that call is the first thing it does. *)
Lemma relay_calls_inference (v : json) (items : list json) :
  body_json request = Some v ->
  original_messages v = Some items ->
  Forall (fun msg => msg <> JNull) items ->
  exists rest,
    trace (handleChatRequest request env) =
      AiRun MODEL_ID (inference_inputs items) (JObject []) :: rest.
Proof.
  intros Hbody Horig Hnonnull.
  pose proof (array_some_total items Hnonnull) as Htotal.
  relay_cases request env; try congruence;
    assert (list = items) by congruence; subst list.
  - unfold scan in Hs. congruence.
  - eexists. reflexivity.
  - eexists. reflexivity.
Qed.

(** How the relay settles, by what the one inference call gave. *)
Lemma relay_result_after_call
    (model : string) (inputs : AiInputs) (options : json) :
  In (AiRun model inputs options) (trace (handleChatRequest request env)) ->
  result (handleChatRequest request env) =
    match AI_run env model inputs options with
    | Resolved s => Resolved (stream_response s)
    | Rejected _ => Resolved error_response
    end.
Proof.
  intros Hin. relay_cases request env;
    [no_call Hin|no_call Hin|no_call Hin|first_call Hin|first_call Hin];
    rewrite Hai; reflexivity.
Qed.

(** The relay always settles with a response, one of two; the stream
    response comes with no logged failure. *)
Lemma relay_result_shape :
  result (handleChatRequest request env) = Resolved error_response \/
  exists s, result (handleChatRequest request env) = Resolved (stream_response s) /\
            forall label e,
              ~ In (ConsoleError label e) (trace (handleChatRequest request env)).
Proof.
  relay_cases request env; try (left; reflexivity).
  right. exists given. split; [reflexivity|].
  intros label e [Hin|[]]. discriminate Hin.
Qed.

(** What the relay does when [request.json()] rejects, and on [null]. *)
Lemma relay_unparsable :
  body_json request = None ->
  handleChatRequest request env = ([logged SyntaxError], Resolved error_response).
Proof.
  intros Hnone. relay_cases request env; congruence.
Qed.

Lemma relay_null_body :
  body_json request = Some JNull ->
  handleChatRequest request env = ([logged TypeError], Resolved error_response).
Proof.
  intros Hnull. relay_cases request env; try congruence; try reflexivity;
    rewrite Hnull in Hb; inversion Hb; subst; discriminate Ho.
Qed.

End Relay.

(** C1: for a POST of [/api/chat] whose body parses, every message list
    handed to the inference binding is the original list itself when that
    list has an entry of role [system] at some position, and otherwise the
    default system message followed by the original entries in their order;
    and when the original list has no [null] entry the relay does make that
    call, first, with the fixed model, token budget and streaming flag. *)
Theorem C1_inference_messages (request : Request) (env : Env) (v : json) :
  pathname (url request) = "/api/chat" ->
  method request = "POST" ->
  body_json request = Some v ->
  (forall model inputs options,
     In (AiRun model inputs options) (trace (fetch request env)) ->
     exists items,
       original_messages v = Some items /\
       messages inputs =
         JArray (if has_system_entry items then items
                 else system_message :: items)) /\
  (forall items,
     original_messages v = Some items ->
     Forall (fun msg => msg <> JNull) items ->
     exists rest,
       trace (fetch request env) =
         AiRun MODEL_ID
           {| messages := JArray (if has_system_entry items then items
                                  else system_message :: items);
              max_tokens := 1024; stream := true |}
           (JObject []) :: rest).
Proof.
  intros Hpath Hmethod Hbody.
  rewrite (fetch_chat_post _ _ Hpath Hmethod).
  split.
  - intros model inputs options Hin.
    destruct (relay_call_inputs request env v model inputs options Hbody Hin)
      as [items [Horig [_ [-> _]]]].
    exists items. split; [exact Horig|reflexivity].
  - intros items Horig Hnonnull.
    exact (relay_calls_inference request env v items Hbody Horig Hnonnull).
Qed.

Lemma C1_inference_messages_witness :
  (forall model inputs options,
     In (AiRun model inputs options)
        (trace (fetch (post_chat (Some sample_chat_body)) env_streaming)) ->
     exists items,
       original_messages sample_chat_body = Some items /\
       messages inputs =
         JArray (if has_system_entry items then items
                 else system_message :: items)) /\
  (forall items,
     original_messages sample_chat_body = Some items ->
     Forall (fun msg => msg <> JNull) items ->
     exists rest,
       trace (fetch (post_chat (Some sample_chat_body)) env_streaming) =
         AiRun MODEL_ID
           {| messages := JArray (if has_system_entry items then items
                                  else system_message :: items);
              max_tokens := 1024; stream := true |}
           (JObject []) :: rest).
Proof.
  apply (C1_inference_messages (post_chat (Some sample_chat_body)) env_streaming
           sample_chat_body); reflexivity.
Defined.

(** The relay on sample bodies, by evaluation. *)
Example relay_injects_default :
  trace (fetch (post_chat (Some sample_chat_body)) env_streaming) =
    [AiRun MODEL_ID
       {| messages := JArray [system_message; user_message "hello"];
          max_tokens := 1024; stream := true |}
       (JObject [])].
Proof. reflexivity. Qed.

Example relay_keeps_given_system :
  let given := [user_message "hello";
                JObject [("role", JString "system"); ("content", JString "Be brief.")]] in
  trace (fetch (post_chat (Some (JObject [("messages", JArray given)]))) env_streaming) =
    [AiRun MODEL_ID
       {| messages := JArray given; max_tokens := 1024; stream := true |}
       (JObject [])].
Proof. reflexivity. Qed.

Example relay_null_entry_fails :
  fetch (post_chat (Some (JObject [("messages", JArray [JNull])]))) env_streaming =
    ([logged TypeError], Resolved error_response).
Proof. reflexivity. Qed.

(** C3: for a POST of [/api/chat] whose body parses and whose inference
    call gives a stream, the relay answers with status 200, that very
    stream as body, and the three headers [content-type: text/event-stream;
    charset=utf-8], [cache-control: no-cache], [connection: keep-alive]. *)
Theorem C3_stream_passthrough (request : Request) (env : Env) (v : json)
    (model : string) (inputs : AiInputs) (options : json) (s : ReadableStream) :
  pathname (url request) = "/api/chat" ->
  method request = "POST" ->
  body_json request = Some v ->
  In (AiRun model inputs options) (trace (fetch request env)) ->
  AI_run env model inputs options = Resolved s ->
  result (fetch request env) =
    Resolved {| status := 200;
                headers := [("content-type", "text/event-stream; charset=utf-8");
                            ("cache-control", "no-cache");
                            ("connection", "keep-alive")];
                body := BodyStream s |}.
Proof.
  intros Hpath Hmethod Hbody Hin Hok.
  rewrite (fetch_chat_post _ _ Hpath Hmethod) in *.
  rewrite (relay_result_after_call _ _ _ _ _ Hin), Hok. reflexivity.
Qed.

Lemma C3_stream_passthrough_witness :
  result (fetch (post_chat (Some sample_chat_body)) env_streaming) =
    Resolved {| status := 200;
                headers := [("content-type", "text/event-stream; charset=utf-8");
                            ("cache-control", "no-cache");
                            ("connection", "keep-alive")];
                body := BodyStream sample_stream |}.
Proof.
  apply (C3_stream_passthrough (post_chat (Some sample_chat_body)) env_streaming
           sample_chat_body MODEL_ID
           (inference_inputs [user_message "hello"]) (JObject []) sample_stream);
    try reflexivity.
  left. reflexivity.
Defined.

(** C2: for a POST of [/api/chat], when [request.json()] fails, when the
    body is JSON [null], or when the inference call fails, the relay answers
    with status 500, body [{"error":"Failed to process request"}] and
    content-type [application/json]; every failure the relay logs gives
    this same response, and the relay never settles otherwise than with
    this response or the 200 stream response.  A body that is a number,
    string, boolean or array is no failure: it is read as an empty message
    list and goes to inference. *)
Theorem C2_failure_response (request : Request) (env : Env) :
  pathname (url request) = "/api/chat" ->
  method request = "POST" ->
  (body_json request = None ->
   fetch request env = ([logged SyntaxError], Resolved error_response)) /\
  (body_json request = Some JNull ->
   fetch request env = ([logged TypeError], Resolved error_response)) /\
  (forall model inputs options e,
     In (AiRun model inputs options) (trace (fetch request env)) ->
     AI_run env model inputs options = Rejected e ->
     result (fetch request env) = Resolved error_response) /\
  (forall label e,
     In (ConsoleError label e) (trace (fetch request env)) ->
     result (fetch request env) = Resolved error_response) /\
  (result (fetch request env) = Resolved error_response \/
   exists s, result (fetch request env) = Resolved (stream_response s)) /\
  (forall v,
     body_json request = Some v -> v <> JNull -> is_object v = false ->
     exists rest,
       trace (fetch request env) =
         AiRun MODEL_ID (inference_inputs []) (JObject []) :: rest) /\
  error_response =
    {| status := 500;
       headers := [("content-type", "application/json")];
       body := BodyText error_text |}.
Proof.
  intros Hpath Hmethod.
  rewrite (fetch_chat_post _ _ Hpath Hmethod).
  repeat split.
  - apply relay_unparsable.
  - apply relay_null_body.
  - intros model inputs options e Hin Hrej.
    rewrite (relay_result_after_call _ _ _ _ _ Hin), Hrej. reflexivity.
  - intros label e Hin.
    destruct (relay_result_shape request env) as [Herr|[s [_ Hno]]];
      [exact Herr|].
    exfalso. exact (Hno label e Hin).
  - destruct (relay_result_shape request env) as [Herr|[s [Hs _]]];
      [left; exact Herr|right; exists s; exact Hs].
  - intros v Hbody Hnull Hobj.
    apply (relay_calls_inference request env v []); [exact Hbody| |constructor].
    destruct v; try reflexivity; [congruence|discriminate Hobj].
Qed.

Lemma C2_failure_response_witness :
  fetch (post_chat None) env_streaming =
    ([logged SyntaxError], Resolved error_response) /\
  result (fetch (post_chat (Some sample_chat_body)) env_failing) =
    Resolved error_response.
Proof.
  split.
  - apply (C2_failure_response (post_chat None) env_streaming eq_refl eq_refl).
    reflexivity.
  - apply (C2_failure_response (post_chat (Some sample_chat_body)) env_failing
             eq_refl eq_refl) with (model := MODEL_ID)
           (inputs := inference_inputs [user_message "hello"])
           (options := JObject []) (e := HostError "inference unavailable").
    + left. reflexivity.
    + reflexivity.
Defined.

(** A body that is not an object, and the relay does not fail: the number
    42 is answered with the 200 stream response. *)
Lemma C2_counterexample :
  pathname (url (post_chat (Some (JNum 42)))) = "/api/chat" /\
  method (post_chat (Some (JNum 42))) = "POST" /\
  body_json (post_chat (Some (JNum 42))) = Some (JNum 42) /\
  is_object (JNum 42) = false /\
  fetch (post_chat (Some (JNum 42))) env_streaming =
    ([AiRun MODEL_ID
        {| messages := JArray [system_message]; max_tokens := 1024; stream := true |}
        (JObject [])],
     Resolved (stream_response sample_stream)) /\
  status (stream_response sample_stream) = 200 /\
  Resolved (stream_response sample_stream) <> Resolved error_response.
Proof.
  repeat split. discriminate.
Qed.

End WorkerProofs.

(** * Properties of the offline cache shell *)

Module ServiceWorkerProofs.
Import ServiceWorker.
Local Open Scope sw_scope.

(** ** Fetch listener *)

(** C6: a request whose path starts with [/api/] is answered by the network
    fetch of that request, settled as the network settles it; the only call
    made is that fetch, so cache storage is neither read nor written, and it
    is left as it was, whatever it holds. *)
Theorem C6_api_bypasses_cache (pf : Platform) (request : Request)
    (caches : CacheStorage) :
  String.prefix "/api/" (pathname (url request)) = true ->
  on_fetch pf request caches =
    ([NetworkFetch request], caches,
     Resolved (match network pf request with
               | Resolved response => Resolved (Some response)
               | Rejected e => Rejected e
               end)) /\
  existsb touches_cache (trace_of (on_fetch pf request caches)) = false.
Proof.
  intros Hapi. unfold on_fetch. rewrite Hapi.
  unfold settle, then_, fetch, trace_of.
  destruct (network pf request) as [response|e]; split; reflexivity.
Qed.

Lemma C6_api_bypasses_cache_witness :
  on_fetch serving (get_request "/api/chat" "cors") with_older_bucket =
    ([NetworkFetch (get_request "/api/chat" "cors")], with_older_bucket,
     Resolved (Resolved (Some (page "shell")))) /\
  existsb touches_cache
    (trace_of (on_fetch serving (get_request "/api/chat" "cors") with_older_bucket))
  = false.
Proof.
  apply (C6_api_bypasses_cache serving (get_request "/api/chat" "cors")
           with_older_bucket).
  reflexivity.
Defined.

(** A request outside [/api/] that is in the cache is answered from the
    cache, without a network fetch. *)
Lemma on_fetch_hit (pf : Platform) (request : Request) (caches : CacheStorage)
    (hit : Response) :
  String.prefix "/api/" (pathname (url request)) = false ->
  storage_match request caches = Some hit ->
  on_fetch pf request caches =
    ([CachesMatch (href (url request))], caches, Resolved (Resolved (Some hit))).
Proof.
  intros Hapi Hhit. unfold on_fetch. rewrite Hapi.
  unfold settle, then_, caches_match. rewrite Hhit. reflexivity.
Qed.

(** A GET that misses the cache and is answered 200 by the network is
    stored in the current bucket, and the live response is returned. *)
Example on_fetch_miss_stores :
  on_fetch serving (get_request "/chat.js" "no-cors") shell_only =
    ([CachesMatch "https://chat.example/chat.js";
      NetworkFetch (get_request "/chat.js" "no-cors");
      CachesOpen CACHE_NAME;
      CachePut CACHE_NAME "https://chat.example/chat.js"],
     [(CACHE_NAME,
       <["https://chat.example/chat.js" := page "shell"]>
         {[ index_url := page "current shell" ]})],
     Resolved (Resolved (Some (page "shell")))).
Proof. vm_compute. reflexivity. Qed.

(** The listener on a request outside [/api/] that misses the cache and
    whose network fetch fails. *)
Lemma on_fetch_offline_miss (pf : Platform) (request : Request)
    (caches : CacheStorage) (e : error) :
  String.prefix "/api/" (pathname (url request)) = false ->
  storage_match request caches = None ->
  network pf request = Rejected e ->
  on_fetch pf request caches =
    if String.eqb (mode request) "navigate" then
      ([CachesMatch (href (url request)); NetworkFetch request;
        CachesMatch (index_key pf)],
       caches,
       Resolved (Resolved (storage_match (request_of_string pf "/index.html") caches)))
    else
      ([CachesMatch (href (url request)); NetworkFetch request],
       caches,
       Resolved (Resolved None)).
Proof.
  intros Hapi Hmiss Hnet. unfold on_fetch. rewrite Hapi.
  unfold settle, then_, catch_, caches_match, fetch.
  rewrite Hmiss, Hnet.
  destruct (String.eqb (mode request) "navigate"); reflexivity.
Qed.

(** C7: on a request outside [/api/] that misses the cache, whose network
    fetch fails and whose mode is not navigation, no fallback is tried (the
    cache is read once, for the request itself) and no substitute response
    is produced: the failure is caught, and the promise given to
    [respondWith] is fulfilled with [undefined]. *)
Theorem C7_no_fallback (pf : Platform) (request : Request)
    (caches : CacheStorage) (e : error) :
  String.prefix "/api/" (pathname (url request)) = false ->
  storage_match request caches = None ->
  network pf request = Rejected e ->
  mode request <> "navigate" ->
  on_fetch pf request caches =
    ([CachesMatch (href (url request)); NetworkFetch request],
     caches,
     Resolved (Resolved None)).
Proof.
  intros Hapi Hmiss Hnet Hmode.
  rewrite (on_fetch_offline_miss pf request caches e Hapi Hmiss Hnet).
  destruct (String.eqb_spec (mode request) "navigate"); [contradiction|reflexivity].
Qed.

Lemma C7_no_fallback_witness :
  on_fetch offline (get_request "/chat.js" "no-cors") shell_only =
    ([CachesMatch "https://chat.example/chat.js";
      NetworkFetch (get_request "/chat.js" "no-cors")],
     shell_only,
     Resolved (Resolved None)).
Proof.
  apply (C7_no_fallback offline (get_request "/chat.js" "no-cors") shell_only
           (HostError "offline")); [reflexivity|reflexivity|reflexivity|discriminate].
Defined.

(** The failure of the network does not reach [respondWith]: on a script
    request that misses the cache while offline, the handler's promise is
    fulfilled (with [undefined]), not rejected. *)
Lemma C7_counterexample :
  String.prefix "/api/" (pathname (url (get_request "/chat.js" "no-cors"))) = false /\
  storage_match (get_request "/chat.js" "no-cors") shell_only = None /\
  network offline (get_request "/chat.js" "no-cors") = Rejected (HostError "offline") /\
  String.eqb (mode (get_request "/chat.js" "no-cors")) "navigate" = false /\
  result_of (on_fetch offline (get_request "/chat.js" "no-cors") shell_only)
    = Resolved (Resolved None) /\
  result_of (on_fetch offline (get_request "/chat.js" "no-cors") shell_only)
    <> Resolved (Rejected (HostError "offline")).
Proof.
  repeat split. discriminate.
Qed.




(** [caches.match] searches every bucket: on a storage that still held an
    older bucket with a root document of its own, the older document would
    be the answer.  The activate listener leaves no such bucket (see
    [activate_drops_older_bucket] below). *)
Example fallback_takes_first_holder :
  result_of (on_fetch offline (get_request "/settings" "navigate") with_older_bucket)
    = Resolved (Resolved (Some (page "old shell"))).
Proof. reflexivity. Qed.

(** ** Activate listener *)

Lemma filter_all {A} (f : A -> bool) (l : list A) :
  (forall x, In x l -> f x = true) -> List.filter f l = l.
Proof.
  induction l as [|x rest IH]; intros Hall; [reflexivity|].
  simpl. rewrite (Hall x (or_introl eq_refl)).
  f_equal. apply IH. intros y Hy. apply Hall. right. exact Hy.
Qed.

Lemma filter_twice {A} (f g : A -> bool) (l : list A) :
  List.filter g (List.filter f l) = List.filter (fun x => f x && g x) l.
Proof.
  induction l as [|x rest IH]; [reflexivity|].
  simpl. destruct (f x); simpl; [destruct (g x)|]; rewrite ?IH; reflexivity.
Qed.

Lemma promise_all_delete (names : list string) (caches : CacheStorage) :
  exists flags,
    promise_all caches_delete names caches =
      (List.map CachesDelete names, without names caches, Resolved flags).
Proof.
  revert caches. induction names as [|k rest IH]; intros caches.
  - exists []. unfold without. simpl.
    rewrite filter_all; [reflexivity|]. intros; reflexivity.
  - destruct (IH (List.filter (fun b => negb (String.eqb (fst b) k)) caches))
      as [flags Hrest].
    exists (has_bucket k caches :: flags).
    simpl. unfold then_ at 1. unfold caches_delete at 1.
    unfold then_ at 1. rewrite Hrest. unfold ret, without.
    rewrite filter_twice, app_nil_r. simpl.
    rewrite (List.filter_ext
               (fun b : string * Cache =>
                  negb (String.eqb (fst b) k) && negb (existsb (String.eqb (fst b)) rest))
               (fun b => negb (String.eqb (fst b) k || existsb (String.eqb (fst b)) rest)));
      [reflexivity|].
    intros b. rewrite negb_orb. reflexivity.
Qed.

(** Deleting every name but the current one leaves the buckets of the
    current name. *)
Lemma without_others (caches : CacheStorage) :
  without (List.filter (fun k => negb (String.eqb k CACHE_NAME)) (List.map fst caches))
          caches
  = List.filter (fun b => String.eqb (fst b) CACHE_NAME) caches.
Proof.
  unfold without. apply List.filter_ext_in. intros [name c] Hin. simpl.
  destruct (String.eqb_spec name CACHE_NAME) as [->|Hne].
  - apply negb_true_iff.
    destruct (existsb _ _) eqn:Hex; [|reflexivity].
    apply existsb_exists in Hex. destruct Hex as [k [Hk Heq]].
    apply filter_In in Hk. destruct Hk as [_ Hk].
    apply String.eqb_eq in Heq. subst k.
    rewrite String.eqb_refl in Hk. discriminate Hk.
  - apply negb_false_iff. apply existsb_exists. exists name. split.
    + apply filter_In. split.
      * apply in_map_iff. exists (name, c). split; [reflexivity|exact Hin].
      * apply negb_true_iff. apply String.eqb_neq. exact Hne.
    + apply String.eqb_refl.
Qed.

Lemma on_activate_run (caches : CacheStorage) :
  exists flags,
    on_activate caches =
      ((CachesKeys ::
          List.map CachesDelete
            (List.filter (fun k => negb (String.eqb k CACHE_NAME)) (List.map fst caches)))
         ++ [ClientsClaim],
       List.filter (fun b => String.eqb (fst b) CACHE_NAME) caches,
       Resolved (Resolved flags))%list.
Proof.
  destruct (promise_all_delete
              (List.filter (fun k => negb (String.eqb k CACHE_NAME)) (List.map fst caches))
              caches) as [flags Hdel].
  exists flags.
  unfold on_activate, then_, settle, caches_keys, emit, ret.
  rewrite Hdel, without_others. simpl. rewrite ?app_nil_r. reflexivity.
Qed.

Lemma bucket_filter_same (current : string) (caches : CacheStorage) :
  bucket current (List.filter (fun b => String.eqb (fst b) current) caches)
  = bucket current caches.
Proof.
  induction caches as [|[name c] rest IH]; [reflexivity|].
  simpl. destruct (String.eqb name current) eqn:Hname; simpl.
  - rewrite Hname. reflexivity.
  - exact IH.
Qed.

Lemma bucket_filter_other (current name : string) (caches : CacheStorage) :
  name <> current ->
  bucket name (List.filter (fun b => String.eqb (fst b) current) caches) = None.
Proof.
  intros Hne. induction caches as [|[n c] rest IH]; [reflexivity|].
  simpl. destruct (String.eqb_spec n current) as [->|]; simpl; [|exact IH].
  destruct (String.eqb_spec current name); [congruence|exact IH].
Qed.

(** C8: after the activate listener has run, no bucket of a name other
    than [CACHE_NAME] is left (each one listed before was deleted by a call
    of [caches.delete]), the bucket called [CACHE_NAME] is as it was and no
    deletion was asked for it, so the names that cache storage lists are
    all [CACHE_NAME]; the promise given to [waitUntil] is fulfilled. *)
Theorem C8_activate_purges (caches : CacheStorage) :
  (forall name, name <> CACHE_NAME ->
     bucket name (caches_of (on_activate caches)) = None) /\
  (forall name, In name (List.map fst caches) -> name <> CACHE_NAME ->
     In (CachesDelete name) (trace_of (on_activate caches))) /\
  bucket CACHE_NAME (caches_of (on_activate caches)) = bucket CACHE_NAME caches /\
  existsb (fun ev => match ev with
                     | CachesDelete name => String.eqb name CACHE_NAME
                     | _ => false
                     end) (trace_of (on_activate caches)) = false /\
  (forall name, In name (List.map fst (caches_of (on_activate caches))) ->
     name = CACHE_NAME) /\
  (exists flags, result_of (on_activate caches) = Resolved (Resolved flags)).
Proof.
  destruct (on_activate_run caches) as [flags Hrun]. rewrite Hrun.
  unfold caches_of, trace_of, result_of. simpl fst. simpl snd.
  repeat split.
  - intros name Hne. apply bucket_filter_other. exact Hne.
  - intros name Hin Hne. right. apply in_or_app. left.
    apply in_map. apply filter_In. split; [exact Hin|].
    apply negb_true_iff. apply String.eqb_neq. exact Hne.
  - apply bucket_filter_same.
  - simpl. rewrite existsb_app. simpl. rewrite orb_false_r.
    destruct (existsb _ _) eqn:Hex; [|reflexivity].
    apply existsb_exists in Hex. destruct Hex as [ev [Hev Hcur]].
    apply in_map_iff in Hev. destruct Hev as [k [<- Hk]].
    apply filter_In in Hk. destruct Hk as [_ Hk].
    rewrite Hcur in Hk. discriminate Hk.
  - intros name Hin. apply in_map_iff in Hin. destruct Hin as [[n c] [<- Hb]].
    apply filter_In in Hb. destruct Hb as [_ Hb].
    apply String.eqb_eq. exact Hb.
  - exists flags. reflexivity.
Qed.

Example activate_drops_older_bucket :
  caches_of (on_activate with_older_bucket) = shell_only.
Proof. reflexivity. Qed.

(** ** Install listener *)

(** If one of the assets fails, the fetching half of [addAll] rejects,
    having touched no cache. *)
Lemma fetch_all_fails (pf : Platform) (paths : list string) (caches : CacheStorage) :
  existsb (asset_fails pf) paths = true ->
  exists t e,
    fetch_all pf (List.map (request_of_string pf) paths) caches
      = (t, caches, Rejected e) /\
    existsb touches_cache t = false.
Proof.
  induction paths as [|path rest IH]; intros Hfail; [discriminate Hfail|].
  cbn [existsb] in Hfail. cbn [List.map fetch_all].
  unfold then_ at 1. unfold fetch at 1. unfold asset_fails at 1 in Hfail.
  destruct (network pf (request_of_string pf path)) as [response|e].
  - destruct (storable response).
    + cbn [negb orb] in Hfail. destruct (IH Hfail) as [t [e [Hrest Hquiet]]].
      unfold then_ at 1. rewrite Hrest.
      exists (NetworkFetch (request_of_string pf path) :: t), e.
      split; [reflexivity|exact Hquiet].
    + exists [NetworkFetch (request_of_string pf path)], TypeError.
      split; reflexivity.
  - exists [NetworkFetch (request_of_string pf path)], e. split; reflexivity.
Qed.

Lemma on_install_failing (pf : Platform) (caches : CacheStorage) :
  existsb (asset_fails pf) STATIC_ASSETS = true ->
  exists t,
    on_install pf caches =
      ((CachesOpen CACHE_NAME :: t) ++ [SkipWaiting],
       (if has_bucket CACHE_NAME caches then caches
        else caches ++ [(CACHE_NAME, ∅)]),
       Resolved (Resolved tt))%list /\
    existsb touches_cache t = false.
Proof.
  intros Hfail.
  destruct (fetch_all_fails pf STATIC_ASSETS
              (if has_bucket CACHE_NAME caches then caches
               else caches ++ [(CACHE_NAME, ∅)])%list Hfail)
    as [t [e [Hall Hquiet]]].
  destruct (forallb cacheable (List.map (request_of_string pf) STATIC_ASSETS))
    eqn:Hkeys.
  - exists t. split; [|exact Hquiet].
    unfold on_install, then_, settle, catch_, caches_open, cache_addAll, then_,
      emit, ret.
    rewrite Hkeys, Hall. rewrite ?app_nil_r. reflexivity.
  - exists []. split; [|reflexivity].
    unfold on_install, then_, settle, catch_, caches_open, cache_addAll, reject,
      emit, ret.
    rewrite Hkeys. reflexivity.
Qed.

Lemma bucket_app_absent (name : string) (caches extra : CacheStorage) :
  bucket name caches = None ->
  bucket name (caches ++ extra)%list = bucket name extra.
Proof.
  induction caches as [|[n c] rest IH]; [reflexivity|].
  simpl. destruct (String.eqb n name); [discriminate|exact IH].
Qed.

Lemma bucket_app_present (name : string) (caches extra : CacheStorage) (c : Cache) :
  bucket name caches = Some c ->
  bucket name (caches ++ extra)%list = Some c.
Proof.
  induction caches as [|[n c'] rest IH]; [discriminate|].
  simpl. destruct (String.eqb n name); [trivial|exact IH].
Qed.

Lemma has_bucket_false (name : string) (caches : CacheStorage) :
  has_bucket name caches = false -> bucket name caches = None.
Proof.
  induction caches as [|[n c] rest IH]; [reflexivity|].
  unfold has_bucket. simpl. destruct (String.eqb n name); [discriminate|exact IH].
Qed.

(** Opening a bucket stores nothing. *)
Lemma stored_after_open (current name key : string) (caches : CacheStorage) :
  stored name key (if has_bucket current caches then caches
                   else caches ++ [(current, ∅)])%list
  = stored name key caches.
Proof.
  destruct (has_bucket current caches) eqn:Hhas; [reflexivity|].
  unfold stored.
  destruct (bucket name caches) as [c|] eqn:Hname.
  - rewrite (bucket_app_present _ _ _ _ Hname). reflexivity.
  - rewrite (bucket_app_absent _ _ _ Hname). simpl.
    destruct (String.eqb current name); [apply lookup_empty|reflexivity].
Qed.

(** C10: when storing one of the shell assets fails (its fetch fails or
    its response is refused), the install listener still completes: the
    promise given to [waitUntil] is fulfilled; no [cache.put] takes place;
    cache storage is as before except that the current bucket now exists,
    and what is stored under every key of every bucket is what was stored
    before, so not one of the shell assets was added. *)
Theorem C10_install_all_or_nothing (pf : Platform) (caches : CacheStorage)
    (path : string) :
  In path STATIC_ASSETS ->
  asset_fails pf path = true ->
  result_of (on_install pf caches) = Resolved (Resolved tt) /\
  existsb is_put (trace_of (on_install pf caches)) = false /\
  caches_of (on_install pf caches) =
    (if has_bucket CACHE_NAME caches then caches
     else caches ++ [(CACHE_NAME, ∅)])%list /\
  (forall name key,
     stored name key (caches_of (on_install pf caches)) = stored name key caches).
Proof.
  intros Hin Hfail.
  assert (Hsome : existsb (asset_fails pf) STATIC_ASSETS = true).
  { apply existsb_exists. exists path. split; assumption. }
  destruct (on_install_failing pf caches Hsome) as [t [Hrun Hquiet]].
  rewrite Hrun. unfold result_of, trace_of, caches_of. cbn [fst snd].
  repeat split.
  - rewrite existsb_app. cbn [existsb is_put orb].
    destruct (existsb is_put t) eqn:Hput; [|reflexivity].
    apply existsb_exists in Hput. destruct Hput as [ev [Hev Hp]].
    assert (Htouch : existsb touches_cache t = true).
    { apply existsb_exists. exists ev. split; [exact Hev|].
      destruct ev; try discriminate Hp. reflexivity. }
    congruence.
  - intros name key. apply stored_after_open.
Qed.

Lemma C10_install_all_or_nothing_witness :
  result_of (on_install no_manifest []) = Resolved (Resolved tt) /\
  existsb is_put (trace_of (on_install no_manifest [])) = false /\
  caches_of (on_install no_manifest []) = [(CACHE_NAME, ∅)] /\
  (forall name key,
     stored name key (caches_of (on_install no_manifest [])) = stored name key []).
Proof.
  apply (C10_install_all_or_nothing no_manifest [] "/manifest.json").
  - right. right. right. left. reflexivity.
  - reflexivity.
Defined.

(** When every asset can be stored, install stores the four of them. *)
Example install_populates :
  caches_of (on_install serving []) =
    [(CACHE_NAME,
      <["https://chat.example/manifest.json" := page "shell"]>
        (<["https://chat.example/chat.js" := page "shell"]>
           (<["https://chat.example/index.html" := page "shell"]>
              {[ "https://chat.example/" := page "shell" ]})))].
Proof. vm_compute. reflexivity. Qed.

End ServiceWorkerProofs.

(** * Further properties of the edge worker *)

Module WorkerExtras.
Import Worker WorkerProofs.
Local Open Scope worker_scope.

(** ** What a run calls *)

(** The relay's inference call, with all that is known when it is made. *)
Lemma relay_call_scan (request : Request) (env : Env)
    (model : string) (inputs : AiInputs) (options : json) :
  In (AiRun model inputs options) (trace (handleChatRequest request env)) ->
  exists v items,
    body_json request = Some v /\
    original_messages v = Some items /\
    scan items = Resolved (has_system_entry items) /\
    model = MODEL_ID /\ inputs = inference_inputs items /\ options = JObject [] /\
    List.filter is_inference_call (trace (handleChatRequest request env))
      = [AiRun model inputs options].
Proof.
  intros Hin. relay_cases request env;
    [no_call Hin|no_call Hin|no_call Hin|first_call Hin|first_call Hin];
    exists parsed, list; repeat split; assumption.
Qed.

(** Where the router is in one of its four branches. *)
Lemma fetch_branches (request : Request) (env : Env) :
  (String.prefix "/api/" (pathname (url request)) = false /\
   fetch request env = ([AssetsFetch request], ASSETS_fetch env request)) \/
  (pathname (url request) = "/api/chat" /\ method request = "POST" /\
   fetch request env = handleChatRequest request env) \/
  (String.prefix "/api/" (pathname (url request)) = true /\
   exists response, fetch request env = ([], Resolved response)).
Proof.
  unfold fetch.
  destruct (String.prefix "/api/" (pathname (url request))) eqn:Hapi.
  - rewrite (api_path_not_root _ Hapi). cbn [negb orb].
    destruct (String.eqb_spec (pathname (url request)) "/api/chat") as [Hchat|_].
    + destruct (String.eqb_spec (method request) "POST") as [Hpost|_].
      * right. left. repeat split; assumption.
      * right. right. split; [reflexivity|]. eexists. reflexivity.
    + right. right. split; [reflexivity|]. eexists. reflexivity.
  - left. split; [reflexivity|]. rewrite orb_true_r. reflexivity.
Qed.

(** X2: An inference call is made only for a POST of [/api/chat], with the fixed
    model, a budget of 1024 tokens, streaming on and empty options, and it
    is the only inference call of the run. *)
Theorem inference_call_discipline (request : Request) (env : Env)
    (model : string) (inputs : AiInputs) (options : json) :
  In (AiRun model inputs options) (trace (fetch request env)) ->
  pathname (url request) = "/api/chat" /\
  method request = "POST" /\
  model = MODEL_ID /\
  max_tokens inputs = 1024 /\
  stream inputs = true /\
  options = JObject [] /\
  List.filter is_inference_call (trace (fetch request env))
    = [AiRun model inputs options].
Proof.
  intros Hin.
  destruct (fetch_branches request env)
    as [[_ Hrun]|[[Hchat [Hpost Hrun]]|[_ [response Hrun]]]];
    rewrite Hrun in *.
  - destruct Hin as [Hin|[]]. discriminate Hin.
  - destruct (relay_call_scan request env model inputs options Hin)
      as [v [items [_ [_ [_ [Hm [Hi [Ho Hone]]]]]]]].
    subst inputs. repeat split; assumption.
  - destruct Hin.
Qed.

Lemma inference_call_discipline_witness :
  pathname (url (post_chat (Some sample_chat_body))) = "/api/chat" /\
  method (post_chat (Some sample_chat_body)) = "POST" /\
  MODEL_ID = MODEL_ID /\
  max_tokens (inference_inputs [user_message "hello"]) = 1024 /\
  stream (inference_inputs [user_message "hello"]) = true /\
  JObject [] = JObject [] /\
  List.filter is_inference_call
    (trace (fetch (post_chat (Some sample_chat_body)) env_failing))
    = [AiRun MODEL_ID (inference_inputs [user_message "hello"]) (JObject [])].
Proof.
  apply (inference_call_discipline (post_chat (Some sample_chat_body)) env_failing).
  left. reflexivity.
Defined.

(** X3: The worker fails only when the asset binding does: a run that rejects
    is a run outside [/api/] whose asset call rejected with that error.
    Under [/api/] the worker always answers with a response. *)
Theorem rejects_only_with_assets (request : Request) (env : Env) (e : error) :
  result (fetch request env) = Rejected e ->
  String.prefix "/api/" (pathname (url request)) = false /\
  ASSETS_fetch env request = Rejected e.
Proof.
  intros Hrej.
  destruct (fetch_branches request env)
    as [[Hapi Hrun]|[[Hchat [Hpost Hrun]]|[_ [response Hrun]]]];
    rewrite Hrun in Hrej.
  - split; [exact Hapi|exact Hrej].
  - destruct (relay_result_shape request env) as [Herr|[s [Hs _]]]; congruence.
  - discriminate Hrej.
Qed.

Lemma rejects_only_with_assets_witness :
  String.prefix "/api/" "/index.html" = false /\
  ASSETS_fetch env_assets_down
    {| url := {| origin := "https://chat.example"; pathname := "/index.html";
                 search := "" |};
       method := "GET"; mode := "navigate"; body_json := None |}
  = Rejected (HostError "assets unavailable").
Proof.
  apply (rejects_only_with_assets
           {| url := {| origin := "https://chat.example"; pathname := "/index.html";
                        search := "" |};
              method := "GET"; mode := "navigate"; body_json := None |}
           env_assets_down (HostError "assets unavailable")).
  reflexivity.
Defined.

(** ** What a run depends on *)

(** The relay reads nothing of the request but what [request.json()] gives,
    and nothing of the bindings but the inference binding. *)
Lemma relay_frame (request request' : Request) (env env' : Env) :
  body_json request' = body_json request ->
  (forall model inputs options,
     AI_run env' model inputs options = AI_run env model inputs options) ->
  handleChatRequest request' env' = handleChatRequest request env.
Proof.
  intros Hbody Hsame.
  pose proof (handleChatRequest_run request' env') as Hrun'.
  remember (handleChatRequest request' env') as run' eqn:Erun'. clear Erun'.
  relay_cases request env;
    destruct Hrun' as [Hb'|v' Hb' Ho'|v' items' e' Hb' Ho' Hs'
                       |v' items' s' Hb' Ho' Hs' Hai'|v' items' e' Hb' Ho' Hs' Hai'];
    rewrite Hbody in Hb'; try congruence;
    assert (v' = parsed) by congruence; subst v';
    try congruence;
    assert (items' = list) by congruence; subst items';
    try congruence;
    rewrite Hsame in Hai'; congruence.
Qed.

(** X1: Under [/api/] the answer depends on the request only through its path,
    its method and its JSON body, and on the bindings only through the
    inference binding: origin, query string and mode are ignored, and so is
    the asset binding. *)
Theorem api_routing_frame (request request' : Request) (env env' : Env) :
  String.prefix "/api/" (pathname (url request)) = true ->
  pathname (url request') = pathname (url request) ->
  method request' = method request ->
  body_json request' = body_json request ->
  (forall model inputs options,
     AI_run env' model inputs options = AI_run env model inputs options) ->
  fetch request' env' = fetch request env.
Proof.
  intros Hapi Hpath Hmethod Hbody Hai.
  unfold fetch. rewrite Hpath, Hmethod, Hapi, (api_path_not_root _ Hapi).
  cbn [negb orb].
  destruct (String.eqb (pathname (url request)) "/api/chat"); [|reflexivity].
  destruct (String.eqb (method request) "POST"); [|reflexivity].
  apply relay_frame; assumption.
Qed.

Lemma api_routing_frame_witness :
  fetch {| url := {| origin := "https://other.example"; pathname := "/api/chat";
                     search := "?debug=1" |};
           method := "POST"; mode := "same-origin";
           body_json := Some sample_chat_body |} env_assets_down
  = fetch (post_chat (Some sample_chat_body)) env_streaming.
Proof.
  apply api_routing_frame; reflexivity.
Defined.

(** ** The list sent to inference *)

Lemma system_message_is_system : is_system_entry system_message = true.
Proof. reflexivity. Qed.

Lemma resolved_has_system (items : list json) :
  has_system_entry (resolved_messages items) = true.
Proof.
  unfold resolved_messages.
  destruct (has_system_entry items) eqn:Hsys; [exact Hsys|reflexivity].
Qed.

(** The scan passes over entries that are neither [null] nor system
    entries. *)
Lemma scan_skip (pre rest : list json) :
  Forall (fun msg => msg <> JNull) pre ->
  has_system_entry pre = false ->
  scan (pre ++ rest) = scan rest.
Proof.
  unfold scan, has_system_entry.
  induction 1 as [|x pre Hx _ IH]; intros Hnone; [reflexivity|].
  cbn [existsb] in Hnone. apply orb_false_iff in Hnone. destruct Hnone as [Hx' Hpre].
  cbn [app array_some]. rewrite (role_is_system_entry x Hx), Hx'. cbn [obind].
  apply IH. exact Hpre.
Qed.

(** The scan stops at the first system entry, when no [null] stands before
    it. *)
Lemma scan_stops (pre post : list json) (sys : json) :
  Forall (fun msg => msg <> JNull) pre ->
  is_system_entry sys = true ->
  scan (pre ++ sys :: post) = Resolved true.
Proof.
  intros Hpre Hsys. unfold scan.
  induction Hpre as [|x pre Hx _ IH].
  - cbn [app array_some]. destruct sys; try discriminate Hsys.
    cbn [role_is_system get_property obind].
    unfold is_system_entry in Hsys. rewrite Hsys. reflexivity.
  - cbn [app array_some]. rewrite (role_is_system_entry x Hx). cbn [obind].
    destruct (is_system_entry x); [reflexivity|exact IH].
Qed.

(** Once the scan of the original list returns, the relay calls inference
    with the resolved list, first. *)
Lemma relay_calls_after_scan (request : Request) (env : Env) (v : json)
    (items : list json) (b : bool) :
  body_json request = Some v ->
  original_messages v = Some items ->
  scan items = Resolved b ->
  exists rest,
    trace (handleChatRequest request env) =
      AiRun MODEL_ID (inference_inputs items) (JObject []) :: rest.
Proof.
  intros Hbody Horig Hscan.
  relay_cases request env; try congruence;
    assert (list = items) by congruence; subst list;
    try congruence; eexists; reflexivity.
Qed.

(** X4: Whatever list reaches inference is an array that holds a system
    entry. *)
Theorem sent_list_has_system (request : Request) (env : Env)
    (model : string) (inputs : AiInputs) (options : json) :
  In (AiRun model inputs options) (trace (fetch request env)) ->
  exists items,
    messages inputs = JArray items /\ has_system_entry items = true.
Proof.
  intros Hin.
  destruct (fetch_branches request env)
    as [[_ Hrun]|[[Hchat [Hpost Hrun]]|[_ [response Hrun]]]];
    rewrite Hrun in Hin.
  - destruct Hin as [Hin|[]]. discriminate Hin.
  - destruct (relay_call_scan request env model inputs options Hin)
      as [v [items [_ [_ [_ [_ [Hi _]]]]]]].
    subst inputs. exists (resolved_messages items).
    split; [reflexivity|apply resolved_has_system].
  - destruct Hin.
Qed.

Lemma sent_list_has_system_witness :
  exists items,
    messages (inference_inputs []) = JArray items /\ has_system_entry items = true.
Proof.
  apply (sent_list_has_system (post_chat (Some (JNum 42))) env_streaming
           MODEL_ID (inference_inputs []) (JObject [])).
  left. reflexivity.
Defined.

(** X5: No second injection: a list that the relay has sent to inference, posted
    back as the [messages] of a new request, is sent on as it is. *)
Theorem resend_is_stable (request request' : Request) (env env' : Env)
    (model : string) (inputs : AiInputs) (options : json) (items : list json) :
  In (AiRun model inputs options) (trace (fetch request env)) ->
  messages inputs = JArray items ->
  pathname (url request') = "/api/chat" ->
  method request' = "POST" ->
  body_json request' = Some (chat_body items) ->
  exists rest,
    trace (fetch request' env') =
      AiRun MODEL_ID
        {| messages := JArray items; max_tokens := 1024; stream := true |}
        (JObject []) :: rest.
Proof.
  intros Hin Hsent Hpath Hmethod Hbody.
  assert (Hscan : scan items = Resolved true /\ has_system_entry items = true).
  { destruct (fetch_branches request env)
      as [[_ Hrun]|[[Hchat [Hpost Hrun]]|[_ [response Hrun]]]];
      rewrite Hrun in Hin.
    - destruct Hin as [Hin|[]]. discriminate Hin.
    - destruct (relay_call_scan request env model inputs options Hin)
        as [v [sent [_ [_ [Hs [_ [Hi _]]]]]]].
      subst inputs. cbn [messages inference_inputs] in Hsent.
      inversion Hsent as [Hitems]. clear Hsent.
      split; [|apply resolved_has_system].
      unfold resolved_messages.
      destruct (has_system_entry sent) eqn:Hsys; [exact Hs|].
      apply (scan_stops [] sent system_message); [constructor|reflexivity].
    - destruct Hin. }
  destruct Hscan as [Hscan Hsys].
  rewrite (fetch_chat_post _ _ Hpath Hmethod).
  destruct (relay_calls_after_scan request' env' (chat_body items) items true
              Hbody eq_refl Hscan) as [rest Hrest].
  exists rest. rewrite Hrest. unfold inference_inputs, resolved_messages.
  rewrite Hsys. reflexivity.
Qed.

Lemma resend_is_stable_witness :
  exists rest,
    trace (fetch (post_chat (Some (chat_body [system_message; user_message "hello"])))
                 env_failing) =
      AiRun MODEL_ID
        {| messages := JArray [system_message; user_message "hello"];
           max_tokens := 1024; stream := true |}
        (JObject []) :: rest.
Proof.
  apply (resend_is_stable (post_chat (Some sample_chat_body))
           (post_chat (Some (chat_body [system_message; user_message "hello"])))
           env_streaming env_failing
           MODEL_ID (inference_inputs [user_message "hello"]) (JObject [])
           [system_message; user_message "hello"]); try reflexivity.
  left. reflexivity.
Defined.

(** ** Lists and bodies the relay refuses *)

Lemma relay_scan_rejects (request : Request) (env : Env) (v : json)
    (items : list json) (e : error) :
  body_json request = Some v ->
  original_messages v = Some items ->
  scan items = Rejected e ->
  handleChatRequest request env = ([logged e], Resolved error_response).
Proof.
  intros Hbody Horig Hscan.
  relay_cases request env; try congruence;
    assert (list = items) by congruence; subst list; congruence.
Qed.

(** X6: A [null] entry that no system entry precedes makes the relay fail: the
    answer is the 500 response, a [TypeError] is logged, and inference is
    not called, whatever follows the [null]. *)
Theorem null_before_system_fails (request : Request) (env : Env) (v : json)
    (pre post : list json) :
  pathname (url request) = "/api/chat" ->
  method request = "POST" ->
  body_json request = Some v ->
  original_messages v = Some (pre ++ JNull :: post)%list ->
  Forall (fun msg => msg <> JNull) pre ->
  has_system_entry pre = false ->
  fetch request env = ([logged TypeError], Resolved error_response).
Proof.
  intros Hpath Hmethod Hbody Horig Hpre Hnone.
  rewrite (fetch_chat_post _ _ Hpath Hmethod).
  apply (relay_scan_rejects request env v (pre ++ JNull :: post)%list);
    [exact Hbody|exact Horig|].
  rewrite (scan_skip pre (JNull :: post) Hpre Hnone). reflexivity.
Qed.

Lemma null_before_system_fails_witness :
  fetch (post_chat (Some (chat_body [user_message "hello"; JNull; given_system])))
        env_streaming
  = ([logged TypeError], Resolved error_response).
Proof.
  apply (null_before_system_fails _ env_streaming
           (chat_body [user_message "hello"; JNull; given_system])
           [user_message "hello"] [given_system]); try reflexivity.
  repeat constructor. discriminate.
Defined.

(** X7: The scan stops at the first system entry: when no [null] stands before
    it, the list goes to inference unchanged, whatever follows that entry
    (a [null] included). *)
Theorem entries_after_system_unchecked (request : Request) (env : Env) (v : json)
    (pre post : list json) (sys : json) :
  pathname (url request) = "/api/chat" ->
  method request = "POST" ->
  body_json request = Some v ->
  original_messages v = Some (pre ++ sys :: post)%list ->
  Forall (fun msg => msg <> JNull) pre ->
  is_system_entry sys = true ->
  exists rest,
    trace (fetch request env) =
      AiRun MODEL_ID
        {| messages := JArray (pre ++ sys :: post);
           max_tokens := 1024; stream := true |}
        (JObject []) :: rest.
Proof.
  intros Hpath Hmethod Hbody Horig Hpre Hsys.
  rewrite (fetch_chat_post _ _ Hpath Hmethod).
  destruct (relay_calls_after_scan request env v (pre ++ sys :: post)%list true
              Hbody Horig (scan_stops pre post sys Hpre Hsys)) as [rest Hrest].
  exists rest. rewrite Hrest. unfold inference_inputs, resolved_messages.
  assert (Hhas : has_system_entry (pre ++ sys :: post)%list = true).
  { unfold has_system_entry. rewrite existsb_app. cbn [existsb].
    rewrite Hsys. rewrite orb_true_l. apply orb_true_r. }
  rewrite Hhas. reflexivity.
Qed.

Lemma entries_after_system_unchecked_witness :
  exists rest,
    trace (fetch (post_chat (Some (chat_body [user_message "hello"; given_system; JNull])))
                 env_streaming) =
      AiRun MODEL_ID
        {| messages := JArray [user_message "hello"; given_system; JNull];
           max_tokens := 1024; stream := true |}
        (JObject []) :: rest.
Proof.
  apply (entries_after_system_unchecked _ env_streaming
           (chat_body [user_message "hello"; given_system; JNull])
           [user_message "hello"] [JNull] given_system); try reflexivity.
  repeat constructor. discriminate.
Defined.

(** X8: A body whose [messages] member is not an array (a string, a number, a
    boolean, an object or [null]) makes the relay fail with the 500
    response and a logged [TypeError], without a call to inference. *)
Theorem messages_not_array_fails (request : Request) (env : Env)
    (members : list (string * json)) (m : json) :
  pathname (url request) = "/api/chat" ->
  method request = "POST" ->
  body_json request = Some (JObject members) ->
  lookup_member "messages" members = Some m ->
  (forall items, m <> JArray items) ->
  fetch request env = ([logged TypeError], Resolved error_response).
Proof.
  intros Hpath Hmethod Hbody Hmember Hnot.
  rewrite (fetch_chat_post _ _ Hpath Hmethod).
  assert (Horig : original_messages (JObject members) = None).
  { cbn [original_messages]. rewrite Hmember.
    destruct m; try reflexivity. exfalso. exact (Hnot items eq_refl). }
  relay_cases request env; try congruence.
Qed.

Lemma messages_not_array_fails_witness :
  fetch (post_chat (Some (JObject [("messages", JString "hello")]))) env_streaming
  = ([logged TypeError], Resolved error_response).
Proof.
  apply (messages_not_array_fails _ env_streaming
           [("messages", JString "hello")] (JString "hello")); try reflexivity.
  intros items. discriminate.
Defined.

End WorkerExtras.

(** * Further properties of the offline cache shell *)

Module ServiceWorkerExtras.
Import ServiceWorker ServiceWorkerProofs.
Local Open Scope sw_scope.

(** ** Storing entries *)

Lemma lookup_insert_all (entries : list (Request * Response)) (c : Cache)
    (key : string) :
  insert_all entries c !! key =
    match latest key entries with
    | Some r => Some r
    | None => c !! key
    end.
Proof.
  revert c. induction entries as [|e rest IH]; intros c; [reflexivity|].
  unfold insert_all in *. cbn [List.fold_left latest]. rewrite IH.
  destruct (latest key rest); [reflexivity|].
  destruct (String.eqb_spec (entry_key e) key) as [->|Hne].
  - apply lookup_insert_eq.
  - apply lookup_insert_ne. exact Hne.
Qed.

Lemma latest_absent (key : string) (entries : list (Request * Response)) :
  ~ In key (List.map entry_key entries) -> latest key entries = None.
Proof.
  induction entries as [|e rest IH]; intros Hnot; [reflexivity|].
  cbn [latest]. rewrite IH by (intros Hin; apply Hnot; right; exact Hin).
  destruct (String.eqb_spec (entry_key e) key) as [Heq|_]; [|reflexivity].
  exfalso. apply Hnot. left. exact Heq.
Qed.

Lemma latest_present (e : Request * Response) (entries : list (Request * Response)) :
  List.NoDup (List.map entry_key entries) ->
  In e entries ->
  latest (entry_key e) entries = Some (snd e).
Proof.
  induction entries as [|x rest IH]; intros Hnodup Hin; [destruct Hin|].
  cbn [List.map] in Hnodup. inversion Hnodup as [|k ks Hfresh Hrest]; subst.
  cbn [latest]. destruct Hin as [->|Hin].
  - rewrite (latest_absent _ _ Hfresh), String.eqb_refl. reflexivity.
  - rewrite (IH Hrest Hin). reflexivity.
Qed.

Lemma insert_all_twice (entries : list (Request * Response)) (c : Cache) :
  insert_all entries (insert_all entries c) = insert_all entries c.
Proof.
  apply map_eq. intros key. rewrite !lookup_insert_all.
  destruct (latest key entries); reflexivity.
Qed.

Lemma store_all_nil (name : string) (caches : CacheStorage) :
  store_all name [] caches = caches.
Proof.
  unfold store_all. rewrite <- (List.map_id caches) at 2.
  apply List.map_ext. intros [n c]. cbn [fst snd insert_all List.fold_left].
  destruct (String.eqb n name); reflexivity.
Qed.

Lemma store_all_cons (name : string) (request : Request) (response : Response)
    (entries : list (Request * Response)) (caches : CacheStorage) :
  store_all name entries (store name (href (url request)) response caches)
  = store_all name ((request, response) :: entries) caches.
Proof.
  unfold store_all, store. rewrite List.map_map.
  apply List.map_ext. intros [n c]. cbn [fst snd].
  destruct (String.eqb n name) eqn:Hn; cbn [fst snd]; rewrite Hn; reflexivity.
Qed.

Lemma store_all_twice (name : string) (entries : list (Request * Response))
    (caches : CacheStorage) :
  store_all name entries (store_all name entries caches)
  = store_all name entries caches.
Proof.
  unfold store_all. rewrite List.map_map.
  apply List.map_ext. intros [n c]. cbn [fst snd].
  destruct (String.eqb n name) eqn:Hn; cbn [fst snd]; rewrite Hn;
    [rewrite insert_all_twice|]; reflexivity.
Qed.

Lemma bucket_store_all (n name : string) (entries : list (Request * Response))
    (caches : CacheStorage) :
  bucket n (store_all name entries caches) =
    if String.eqb n name then insert_all entries <$> bucket n caches
    else bucket n caches.
Proof.
  induction caches as [|[m c] rest IH].
  - cbn. destruct (String.eqb n name); reflexivity.
  - unfold store_all in *. cbn [List.map fst snd].
    destruct (String.eqb_spec m name) as [->|Hm]; cbn [bucket].
    + destruct (String.eqb_spec name n) as [->|Hn].
      * rewrite String.eqb_refl. reflexivity.
      * exact IH.
    + destruct (String.eqb_spec m n) as [->|Hn]; [|exact IH].
      destruct (String.eqb_spec n name); [contradiction|reflexivity].
Qed.

Lemma has_bucket_store_all (n name : string) (entries : list (Request * Response))
    (caches : CacheStorage) :
  has_bucket n (store_all name entries caches) = has_bucket n caches.
Proof.
  unfold has_bucket, store_all. induction caches as [|[m c] rest IH]; [reflexivity|].
  cbn [List.map existsb fst snd]. rewrite IH.
  destruct (String.eqb m name); reflexivity.
Qed.

(** What is stored after [entries] went into the bucket [name]. *)
Lemma stored_store_all (n key name : string) (entries : list (Request * Response))
    (caches : CacheStorage) :
  stored n key (store_all name entries caches) =
    match bucket n caches with
    | None => None
    | Some c =>
        if String.eqb n name then
          match latest key entries with
          | Some r => Some r
          | None => c !! key
          end
        else c !! key
    end.
Proof.
  unfold stored. rewrite bucket_store_all.
  destruct (String.eqb n name); destruct (bucket n caches) as [c|];
    try reflexivity.
  cbn. apply lookup_insert_all.
Qed.

Lemma put_all_run (name : string) (entries : list (Request * Response))
    (caches : CacheStorage) :
  put_all name entries caches =
    (List.map (fun e => CachePut name (entry_key e)) entries,
     store_all name entries caches,
     Resolved tt).
Proof.
  revert caches. induction entries as [|[request response] rest IH]; intros caches.
  - cbn [put_all List.map]. rewrite store_all_nil. reflexivity.
  - cbn [put_all]. unfold then_ at 1. unfold batch_put at 1.
    rewrite IH, store_all_cons. reflexivity.
Qed.

Lemma has_bucket_opened (name : string) (caches : CacheStorage) :
  has_bucket name (opened name caches) = true.
Proof.
  unfold opened. destruct (has_bucket name caches) eqn:Hhas; [exact Hhas|].
  unfold has_bucket. rewrite existsb_app. cbn [existsb fst].
  rewrite String.eqb_refl. rewrite orb_true_l. apply orb_true_r.
Qed.

Lemma opened_twice (name : string) (caches : CacheStorage) :
  opened name (opened name caches) = opened name caches.
Proof.
  unfold opened at 1. rewrite has_bucket_opened. reflexivity.
Qed.

(** ** Install *)

(** When no asset fails, the fetching half of [addAll] gives every request
    with its response and touches no cache. *)
Lemma fetch_all_ok (pf : Platform) (paths : list string) (caches : CacheStorage) :
  existsb (asset_fails pf) paths = false ->
  fetch_all pf (List.map (request_of_string pf) paths) caches =
    (List.map NetworkFetch (List.map (request_of_string pf) paths),
     caches,
     Resolved (shell_entries pf paths)).
Proof.
  induction paths as [|path rest IH]; intros Hok; [reflexivity|].
  cbn [existsb] in Hok. apply orb_false_iff in Hok. destruct Hok as [Hpath Hrest].
  unfold asset_fails in Hpath.
  unfold shell_entries in *. cbn [List.map fetch_all List.flat_map].
  unfold then_ at 1. unfold fetch at 1.
  destruct (network pf (request_of_string pf path)) as [response|e];
    [|discriminate Hpath].
  apply negb_false_iff in Hpath. rewrite Hpath.
  unfold then_ at 1. rewrite (IH Hrest). unfold ret. cbn.
  rewrite app_nil_r. reflexivity.
Qed.

Lemma shell_entries_keys (pf : Platform) (paths : list string) (key : string) :
  In key (List.map entry_key (shell_entries pf paths)) ->
  In key (List.map (shell_key pf) paths).
Proof.
  unfold shell_entries.
  induction paths as [|path rest IH]; intros Hin; [exact Hin|].
  cbn [List.flat_map List.map] in *.
  destruct (network pf (request_of_string pf path)) as [response|e].
  - destruct Hin as [Hin|Hin]; [left; exact Hin|right; apply IH; exact Hin].
  - right. apply IH. exact Hin.
Qed.

Lemma shell_entries_keys_ok (pf : Platform) (paths : list string) :
  existsb (asset_fails pf) paths = false ->
  List.map entry_key (shell_entries pf paths) = List.map (shell_key pf) paths.
Proof.
  unfold shell_entries.
  induction paths as [|path rest IH]; intros Hok; [reflexivity|].
  cbn [existsb] in Hok. apply orb_false_iff in Hok. destruct Hok as [Hpath Hrest].
  unfold asset_fails in Hpath. cbn [List.flat_map List.map].
  destruct (network pf (request_of_string pf path)) as [response|e];
    [|discriminate Hpath].
  cbn [app List.map]. rewrite (IH Hrest). reflexivity.
Qed.

Lemma shell_entries_in (pf : Platform) (paths : list string) (path : string)
    (r : Response) :
  In path paths ->
  network pf (request_of_string pf path) = Resolved r ->
  In (request_of_string pf path, r) (shell_entries pf paths).
Proof.
  unfold shell_entries. intros Hin Hnet.
  apply in_flat_map. exists path. split; [exact Hin|].
  rewrite Hnet. left. reflexivity.
Qed.

Lemma append_cancel_l (s a b : string) : s ++ a = s ++ b -> a = b.
Proof.
  induction s as [|c s IH]; cbn; intros H; [exact H|].
  inversion H. apply IH. assumption.
Qed.

Lemma append_empty_r (s : string) : s ++ "" = s.
Proof.
  induction s as [|c s IH]; [reflexivity|].
  change (String c (s ++ "") = String c s). f_equal. exact IH.
Qed.

Lemma shell_key_inj (pf : Platform) (p q : string) :
  shell_key pf p = shell_key pf q -> p = q.
Proof.
  unfold shell_key, href. cbn [url request_of_string origin pathname search].
  rewrite !append_empty_r. apply append_cancel_l.
Qed.

Lemma shell_keys_distinct (pf : Platform) :
  List.NoDup (List.map (shell_key pf) STATIC_ASSETS).
Proof.
  assert (Hpaths : List.NoDup STATIC_ASSETS).
  { unfold STATIC_ASSETS.
    repeat (constructor; [cbn; intros H; repeat destruct H as [H|H];
                          try discriminate H; try destruct H|]).
    constructor. }
  revert Hpaths. generalize STATIC_ASSETS as paths.
  induction paths as [|p rest IH]; intros Hnodup; [constructor|].
  inversion Hnodup as [|x xs Hfresh Hrest]; subst.
  cbn [List.map]. constructor; [|apply IH; exact Hrest].
  intros Hin. apply in_map_iff in Hin. destruct Hin as [q [Hq Hin]].
  apply shell_key_inj in Hq. subst q. exact (Hfresh Hin).
Qed.

Lemma filter_put_quiet (t : list Event) :
  existsb touches_cache t = false -> List.filter is_put t = [].
Proof.
  induction t as [|ev t IH]; intros Hquiet; [reflexivity|].
  cbn [existsb] in Hquiet. apply orb_false_iff in Hquiet.
  destruct Hquiet as [Hev Ht]. cbn [List.filter].
  destruct ev; try discriminate Hev; cbn [is_put]; apply IH; exact Ht.
Qed.

Lemma filter_put_fetches (requests : list Request) :
  List.filter is_put (List.map NetworkFetch requests) = [].
Proof.
  induction requests as [|r rest IH]; [reflexivity|exact IH].
Qed.

Lemma filter_put_puts (name : string) (entries : list (Request * Response)) :
  List.filter is_put (List.map (fun e => CachePut name (entry_key e)) entries)
  = List.map (fun e => CachePut name (entry_key e)) entries.
Proof.
  induction entries as [|e rest IH]; [reflexivity|].
  cbn [List.map List.filter is_put]. rewrite IH. reflexivity.
Qed.

(** The run of the install listener: what it stores is all the shell
    assets or nothing. *)
Lemma on_install_run (pf : Platform) (caches : CacheStorage) :
  exists t,
    on_install pf caches =
      (t,
       store_all CACHE_NAME (installed_entries pf) (opened CACHE_NAME caches),
       Resolved (Resolved tt)) /\
    List.filter is_put t =
      List.map (fun e => CachePut CACHE_NAME (entry_key e)) (installed_entries pf).
Proof.
  unfold installed_entries, shell_cacheable.
  destruct (forallb cacheable (List.map (request_of_string pf) STATIC_ASSETS))
    eqn:Hkeys.
  - destruct (existsb (asset_fails pf) STATIC_ASSETS) eqn:Hfail; cbn [andb negb].
    + destruct (on_install_failing pf caches Hfail) as [t [Hrun Hquiet]].
      eexists. rewrite store_all_nil. split; [exact Hrun|].
      cbn [app List.filter is_put]. rewrite List.filter_app.
      cbn [List.filter is_put]. rewrite app_nil_r.
      apply filter_put_quiet. exact Hquiet.
    + eexists.
      unfold on_install, then_, settle, catch_, caches_open, cache_addAll, then_,
        emit, ret.
      change (if has_bucket CACHE_NAME caches then caches
              else (caches ++ [(CACHE_NAME, ∅)])%list)
        with (opened CACHE_NAME caches).
      rewrite Hkeys.
      rewrite (fetch_all_ok pf STATIC_ASSETS (opened CACHE_NAME caches) Hfail).
      rewrite put_all_run. split; [reflexivity|].
      rewrite ?app_nil_r. cbn [app List.filter is_put].
      rewrite !List.filter_app. cbn [List.filter is_put]. rewrite app_nil_r.
      rewrite filter_put_fetches, filter_put_puts. reflexivity.
  - cbn [andb]. eexists. rewrite store_all_nil.
    unfold on_install, then_, settle, catch_, caches_open, cache_addAll, reject,
      emit, ret.
    rewrite Hkeys. split; reflexivity.
Qed.

Lemma stored_opened (current name key : string) (caches : CacheStorage) :
  stored name key (opened current caches) = stored name key caches.
Proof. apply stored_after_open. Qed.

Lemma bucket_opened_current (name : string) (caches : CacheStorage) :
  exists c, bucket name (opened name caches) = Some c.
Proof.
  pose proof (has_bucket_opened name caches) as Hhas.
  generalize dependent (opened name caches). intros cs.
  unfold has_bucket. induction cs as [|[n c] rest IH]; cbn; [discriminate|].
  destruct (String.eqb n name); [eexists; reflexivity|exact IH].
Qed.

(** X9: Whatever the network does, install completes (the promise given to
    [waitUntil] is fulfilled) and writes nowhere but under the keys of the
    shell assets in the current bucket: every other bucket, and every other
    key of the current bucket, holds what it held. *)
Theorem install_writes_only_shell_keys (pf : Platform) (caches : CacheStorage) :
  result_of (on_install pf caches) = Resolved (Resolved tt) /\
  (forall name key,
     name <> CACHE_NAME \/ ~ In key (List.map (shell_key pf) STATIC_ASSETS) ->
     stored name key (caches_of (on_install pf caches)) = stored name key caches).
Proof.
  destruct (on_install_run pf caches) as [t [Hrun _]]. rewrite Hrun.
  split; [reflexivity|].
  intros name key Hother. unfold caches_of. cbn [fst snd].
  rewrite stored_store_all.
  rewrite <- (stored_opened CACHE_NAME name key caches). unfold stored at 1.
  destruct (bucket name (opened CACHE_NAME caches)) as [c|]; [|reflexivity].
  destruct (String.eqb_spec name CACHE_NAME) as [Hname|_]; [|reflexivity].
  destruct Hother as [Hne|Hkey]; [contradiction|].
  rewrite latest_absent; [reflexivity|].
  intros Hin. apply Hkey. unfold installed_entries in Hin.
  destruct (shell_cacheable pf && negb (existsb (asset_fails pf) STATIC_ASSETS));
    [|destruct Hin].
  apply shell_entries_keys. exact Hin.
Qed.

Lemma shell_cacheable_http (pf : Platform) :
  http_origin (location_origin pf) = true -> shell_cacheable pf = true.
Proof.
  intros Hhttp. unfold shell_cacheable, cacheable.
  cbn [STATIC_ASSETS List.map forallb url method origin request_of_string].
  rewrite Hhttp. reflexivity.
Qed.

(** X10: When the worker's origin is http or https and every shell asset is
    fetched with a response that [addAll] accepts (status 200 to 299, not
    206, no [Vary] header naming [*]), install leaves each of them in the
    current bucket, under its URL, with the response the network gave for
    it. *)
Theorem install_stores_shell (pf : Platform) (caches : CacheStorage)
    (path : string) (r : Response) :
  http_origin (location_origin pf) = true ->
  existsb (asset_fails pf) STATIC_ASSETS = false ->
  In path STATIC_ASSETS ->
  network pf (request_of_string pf path) = Resolved r ->
  stored CACHE_NAME (shell_key pf path) (caches_of (on_install pf caches)) = Some r.
Proof.
  intros Hhttp Hok Hpath Hnet.
  destruct (on_install_run pf caches) as [t [Hrun _]]. rewrite Hrun.
  unfold caches_of. cbn [fst snd]. rewrite stored_store_all.
  destruct (bucket_opened_current CACHE_NAME caches) as [c Hc]. rewrite Hc.
  rewrite String.eqb_refl.
  unfold installed_entries. rewrite (shell_cacheable_http pf Hhttp), Hok.
  cbn [andb negb].
  change (shell_key pf path) with (entry_key (request_of_string pf path, r)).
  rewrite latest_present; [reflexivity| |].
  - rewrite (shell_entries_keys_ok pf STATIC_ASSETS Hok).
    apply shell_keys_distinct.
  - apply shell_entries_in; assumption.
Qed.

Lemma install_stores_shell_witness :
  stored CACHE_NAME "https://chat.example/index.html"
    (caches_of (on_install serving with_older_bucket))
  = Some (page "shell").
Proof.
  apply (install_stores_shell serving with_older_bucket "/index.html" (page "shell"));
    [reflexivity|reflexivity| |reflexivity].
  right. left. reflexivity.
Defined.

(** X11: Installing twice leaves cache storage as installing once does (the
    network answering alike both times): no bucket and no entry is
    duplicated. *)
Theorem install_idempotent (pf : Platform) (caches : CacheStorage) :
  caches_of (on_install pf (caches_of (on_install pf caches)))
  = caches_of (on_install pf caches).
Proof.
  destruct (on_install_run pf caches) as [t [Hrun _]]. rewrite Hrun.
  unfold caches_of at 2 3. cbn [fst snd].
  destruct (on_install_run pf
              (store_all CACHE_NAME (installed_entries pf) (opened CACHE_NAME caches)))
    as [t2 [Hrun2 _]].
  rewrite Hrun2. unfold caches_of. cbn [fst snd].
  unfold opened at 1.
  rewrite has_bucket_store_all, has_bucket_opened.
  apply store_all_twice.
Qed.

(** ** Activate *)

Lemma filter_same_twice (current : string) (caches : CacheStorage) :
  List.filter (fun b : string * Cache => String.eqb (fst b) current)
    (List.filter (fun b : string * Cache => String.eqb (fst b) current) caches)
  = List.filter (fun b : string * Cache => String.eqb (fst b) current) caches.
Proof.
  apply filter_all. intros b Hb. apply filter_In in Hb. apply Hb.
Qed.

Lemma no_other_names (current : string) (caches : CacheStorage) :
  List.filter (fun k => negb (String.eqb k current))
    (List.map fst
       (List.filter (fun b : string * Cache => String.eqb (fst b) current) caches))
  = [].
Proof.
  induction caches as [|[n c] rest IH]; [reflexivity|].
  cbn [List.filter fst]. destruct (String.eqb n current) eqn:Hn; [|exact IH].
  cbn [List.map List.filter fst]. rewrite Hn. exact IH.
Qed.

(** X12: Activating again changes nothing: cache storage stays as the first
    activation left it, and no deletion is asked for. *)
Theorem activate_idempotent (caches : CacheStorage) :
  caches_of (on_activate (caches_of (on_activate caches)))
    = caches_of (on_activate caches) /\
  trace_of (on_activate (caches_of (on_activate caches)))
    = [CachesKeys; ClientsClaim].
Proof.
  destruct (on_activate_run caches) as [flags Hrun]. rewrite Hrun.
  unfold caches_of at 2 3 4. cbn [fst snd].
  destruct (on_activate_run
              (List.filter (fun b : string * Cache => String.eqb (fst b) CACHE_NAME)
                 caches)) as [flags2 Hrun2].
  rewrite Hrun2. unfold caches_of, trace_of. cbn [fst snd].
  rewrite filter_same_twice, no_other_names. split; reflexivity.
Qed.

(** ** Fetch *)

(** The listener on a request outside [/api/] that misses the cache and
    that the network answers. *)
Lemma on_fetch_miss_ok (pf : Platform) (request : Request) (caches : CacheStorage)
    (response : Response) :
  String.prefix "/api/" (pathname (url request)) = false ->
  storage_match request caches = None ->
  network pf request = Resolved response ->
  on_fetch pf request caches =
    if String.eqb (method request) "GET" && (status response =? 200) then
      ([CachesMatch (href (url request)); NetworkFetch request;
        CachesOpen CACHE_NAME; CachePut CACHE_NAME (href (url request))],
       store_all CACHE_NAME
         (if put_accepts request response then [(request, response)] else [])
         (opened CACHE_NAME caches),
       Resolved (Resolved (Some response)))
    else
      ([CachesMatch (href (url request)); NetworkFetch request],
       caches,
       Resolved (Resolved (Some response))).
Proof.
  intros Hapi Hmiss Hnet. unfold on_fetch. rewrite Hapi.
  unfold settle, then_, catch_, caches_match, fetch.
  rewrite Hmiss, Hnet.
  destruct (String.eqb (method request) "GET" && (status response =? 200));
    [|reflexivity].
  unfold detach, then_, caches_open, cache_put, put_accepts.
  change (if has_bucket CACHE_NAME caches then caches
          else (caches ++ [(CACHE_NAME, ∅)])%list)
    with (opened CACHE_NAME caches).
  destruct (cacheable request && negb (status response =? 206) &&
            negb (varies_on_all response)).
  - reflexivity.
  - rewrite store_all_nil. reflexivity.
Qed.

(** What the listener can leave in cache storage. *)
Lemma on_fetch_caches (pf : Platform) (request : Request) (caches : CacheStorage) :
  caches_of (on_fetch pf request caches) = caches \/
  exists entries,
    caches_of (on_fetch pf request caches)
      = store_all CACHE_NAME entries (opened CACHE_NAME caches) /\
    forall key, In key (List.map entry_key entries) -> key = href (url request).
Proof.
  destruct (String.prefix "/api/" (pathname (url request))) eqn:Hapi.
  - left. unfold on_fetch. rewrite Hapi. unfold settle, then_, fetch.
    destruct (network pf request); reflexivity.
  - destruct (storage_match request caches) as [hit|] eqn:Hmatch.
    + left. rewrite (on_fetch_hit pf request caches hit Hapi Hmatch). reflexivity.
    + destruct (network pf request) as [response|e] eqn:Hnet.
      * rewrite (on_fetch_miss_ok pf request caches response Hapi Hmatch Hnet).
        destruct (String.eqb (method request) "GET" && (status response =? 200));
          [|left; reflexivity].
        right. eexists. split; [reflexivity|].
        intros key Hin. destruct (put_accepts request response);
          [|destruct Hin].
        destruct Hin as [<-|[]]. reflexivity.
      * left. rewrite (on_fetch_offline_miss pf request caches e Hapi Hmatch Hnet).
        destruct (String.eqb (mode request) "navigate"); reflexivity.
Qed.

(** X13: Cache first: a request outside [/api/] that is in the cache is answered
    with the cached response; the network is not asked and cache storage
    is not changed. *)
Theorem cached_answer_needs_no_network (pf : Platform) (request : Request)
    (caches : CacheStorage) (hit : Response) :
  String.prefix "/api/" (pathname (url request)) = false ->
  storage_match request caches = Some hit ->
  result_of (on_fetch pf request caches) = Resolved (Resolved (Some hit)) /\
  caches_of (on_fetch pf request caches) = caches /\
  List.filter is_network (trace_of (on_fetch pf request caches)) = [].
Proof.
  intros Hapi Hhit. rewrite (on_fetch_hit pf request caches hit Hapi Hhit).
  repeat split.
Qed.

Lemma cached_answer_needs_no_network_witness :
  result_of (on_fetch offline (get_request "/index.html" "navigate") shell_only)
    = Resolved (Resolved (Some (page "current shell"))) /\
  caches_of (on_fetch offline (get_request "/index.html" "navigate") shell_only)
    = shell_only /\
  List.filter is_network
    (trace_of (on_fetch offline (get_request "/index.html" "navigate") shell_only))
    = [].
Proof.
  apply (cached_answer_needs_no_network offline
           (get_request "/index.html" "navigate") shell_only (page "current shell"));
    reflexivity.
Defined.

(** X14: Only successful GETs are kept: when the request is not a GET, or the
    network's answer has a status other than 200, the answer is passed on
    and cache storage is neither opened nor written. *)
Theorem other_answers_not_stored (pf : Platform) (request : Request)
    (caches : CacheStorage) (response : Response) :
  String.prefix "/api/" (pathname (url request)) = false ->
  storage_match request caches = None ->
  network pf request = Resolved response ->
  method request <> "GET" \/ status response <> 200 ->
  on_fetch pf request caches =
    ([CachesMatch (href (url request)); NetworkFetch request],
     caches,
     Resolved (Resolved (Some response))).
Proof.
  intros Hapi Hmiss Hnet Hother.
  rewrite (on_fetch_miss_ok pf request caches response Hapi Hmiss Hnet).
  destruct (String.eqb_spec (method request) "GET") as [Hget|_]; [|reflexivity].
  destruct (Z.eqb_spec (status response) 200) as [Hok|_]; [|reflexivity].
  destruct Hother; contradiction.
Qed.

Lemma other_answers_not_stored_witness :
  on_fetch no_manifest (get_request "/manifest.json" "cors") shell_only =
    ([CachesMatch "https://chat.example/manifest.json";
      NetworkFetch (get_request "/manifest.json" "cors")],
     shell_only,
     Resolved (Resolved (Some (new_Response (BodyText "not found") (Some 404) [])))).
Proof.
  apply (other_answers_not_stored no_manifest (get_request "/manifest.json" "cors")
           shell_only (new_Response (BodyText "not found") (Some 404) []));
    [reflexivity|reflexivity|reflexivity|].
  right. discriminate.
Defined.

Lemma storage_match_opened (request : Request) (name : string)
    (caches : CacheStorage) :
  storage_match request (opened name caches) = storage_match request caches.
Proof.
  unfold opened. destruct (has_bucket name caches); [reflexivity|].
  induction caches as [|[n c] rest IH].
  - cbn. unfold cache_lookup. destruct (String.eqb (method request) "GET");
      [rewrite lookup_empty|]; reflexivity.
  - cbn [app storage_match]. rewrite IH. reflexivity.
Qed.

(** After a miss, storing the answer under the request makes the request a
    hit for that answer. *)
Lemma storage_match_stored (request : Request) (response : Response)
    (name : string) (caches : CacheStorage) :
  method request = "GET" ->
  storage_match request caches = None ->
  has_bucket name caches = true ->
  storage_match request (store_all name [(request, response)] caches)
  = Some response.
Proof.
  intros Hget. unfold has_bucket, store_all.
  induction caches as [|[n c] rest IH]; intros Hmiss Hhas; [discriminate Hhas|].
  cbn [storage_match] in Hmiss.
  destruct (cache_lookup request c) eqn:Hc; [discriminate Hmiss|].
  cbn [existsb fst] in Hhas. cbn [List.map fst snd].
  destruct (String.eqb n name); cbn [storage_match].
  - unfold cache_lookup. rewrite Hget. cbn.
    unfold entry_key. cbn [fst snd]. rewrite lookup_insert_eq. reflexivity.
  - rewrite Hc. apply IH; assumption.
Qed.

(** X15: A GET of an http or https URL outside [/api/] that missed the
    cache and got from the network a 200 whose [Vary] header does not name
    [*] is served from the cache from then on: the same request, made again
    on the storage that the first one left, gets the same response with no
    network fetch, whatever the network would do. *)
Theorem stored_answer_is_served_again (pf pf' : Platform) (request : Request)
    (caches : CacheStorage) (response : Response) :
  String.prefix "/api/" (pathname (url request)) = false ->
  storage_match request caches = None ->
  network pf request = Resolved response ->
  method request = "GET" ->
  http_origin (origin (url request)) = true ->
  status response = 200 ->
  varies_on_all response = false ->
  result_of (on_fetch pf request caches) = Resolved (Resolved (Some response)) /\
  on_fetch pf' request (caches_of (on_fetch pf request caches)) =
    ([CachesMatch (href (url request))],
     caches_of (on_fetch pf request caches),
     Resolved (Resolved (Some response))).
Proof.
  intros Hapi Hmiss Hnet Hget Hhttp Hok Hvary.
  rewrite (on_fetch_miss_ok pf request caches response Hapi Hmiss Hnet).
  unfold put_accepts, cacheable.
  rewrite Hget, Hhttp, Hok, Hvary.
  cbn [String.eqb Ascii.eqb Bool.eqb Z.eqb Pos.eqb andb negb].
  unfold result_of, caches_of. cbn [fst snd].
  split; [reflexivity|].
  apply on_fetch_hit; [exact Hapi|].
  apply storage_match_stored; [exact Hget| |apply has_bucket_opened].
  rewrite storage_match_opened. exact Hmiss.
Qed.

Lemma stored_answer_is_served_again_witness :
  result_of (on_fetch serving (get_request "/chat.js" "no-cors") with_older_bucket)
    = Resolved (Resolved (Some (page "shell"))) /\
  on_fetch offline (get_request "/chat.js" "no-cors")
    (caches_of (on_fetch serving (get_request "/chat.js" "no-cors") with_older_bucket))
  = ([CachesMatch (href (url (get_request "/chat.js" "no-cors")))],
     caches_of (on_fetch serving (get_request "/chat.js" "no-cors") with_older_bucket),
     Resolved (Resolved (Some (page "shell")))).
Proof.
  apply (stored_answer_is_served_again serving offline
           (get_request "/chat.js" "no-cors") with_older_bucket (page "shell"));
    reflexivity.
Defined.

(** X20: A 200 answer to a GET that the cache refuses (the URL is not http
    or https, or the answer's [Vary] header names [*]) is passed on but not
    kept: [cache.put] rejects unseen, the current bucket is opened and
    nothing is stored, so the same request misses the cache again. *)
Theorem refused_answer_not_kept (pf : Platform) (request : Request)
    (caches : CacheStorage) (response : Response) :
  String.prefix "/api/" (pathname (url request)) = false ->
  storage_match request caches = None ->
  network pf request = Resolved response ->
  method request = "GET" ->
  status response = 200 ->
  http_origin (origin (url request)) = false \/ varies_on_all response = true ->
  result_of (on_fetch pf request caches) = Resolved (Resolved (Some response)) /\
  caches_of (on_fetch pf request caches) = opened CACHE_NAME caches /\
  storage_match request (caches_of (on_fetch pf request caches)) = None.
Proof.
  intros Hapi Hmiss Hnet Hget Hok Hrefused.
  rewrite (on_fetch_miss_ok pf request caches response Hapi Hmiss Hnet).
  assert (Hput : put_accepts request response = false).
  { unfold put_accepts, cacheable. destruct Hrefused as [Hurl|Hvary].
    - rewrite Hurl. reflexivity.
    - rewrite Hvary. rewrite andb_false_r. reflexivity. }
  rewrite Hget, Hok, Hput.
  cbn [String.eqb Ascii.eqb Bool.eqb Z.eqb Pos.eqb andb].
  unfold result_of, caches_of. cbn [fst snd]. rewrite store_all_nil.
  repeat split. rewrite storage_match_opened. exact Hmiss.
Qed.

Lemma refused_answer_not_kept_witness :
  result_of (on_fetch varying (get_request "/chat.js" "no-cors") shell_only)
    = Resolved (Resolved (Some wildcard_page)) /\
  caches_of (on_fetch varying (get_request "/chat.js" "no-cors") shell_only)
    = opened CACHE_NAME shell_only /\
  storage_match (get_request "/chat.js" "no-cors")
    (caches_of (on_fetch varying (get_request "/chat.js" "no-cors") shell_only))
  = None.
Proof.
  apply (refused_answer_not_kept varying (get_request "/chat.js" "no-cors")
           shell_only wildcard_page); try reflexivity.
  right. reflexivity.
Defined.

(** Install on a platform whose answers the cache refuses stores nothing. *)
Example install_refused_answers :
  caches_of (on_install varying []) = [(CACHE_NAME, ∅)].
Proof. reflexivity. Qed.

(** X16: The fetch listener writes at most one place: the request's own URL in
    the current bucket.  Every other bucket, and every other key of the
    current bucket, holds after the listener what it held before, for every
    request and whatever the network does. *)
Theorem fetch_writes_only_own_key (pf : Platform) (request : Request)
    (caches : CacheStorage) :
  forall name key,
    name <> CACHE_NAME \/ key <> href (url request) ->
    stored name key (caches_of (on_fetch pf request caches)) = stored name key caches.
Proof.
  intros name key Hother.
  destruct (on_fetch_caches pf request caches) as [Hsame|[entries [Hstored Hkeys]]].
  - rewrite Hsame. reflexivity.
  - rewrite Hstored, stored_store_all.
    rewrite <- (stored_opened CACHE_NAME name key caches). unfold stored at 1.
    destruct (bucket name (opened CACHE_NAME caches)) as [c|]; [|reflexivity].
    destruct (String.eqb_spec name CACHE_NAME) as [Hname|_]; [|reflexivity].
    destruct Hother as [Hne|Hkey]; [contradiction|].
    rewrite latest_absent; [reflexivity|].
    intros Hin. apply Hkey. apply Hkeys. exact Hin.
Qed.

Lemma fetch_writes_only_own_key_witness :
  stored "ben-chat-v0" index_url
    (caches_of (on_fetch serving (get_request "/chat.js" "no-cors") with_older_bucket))
  = stored "ben-chat-v0" index_url with_older_bucket.
Proof.
  apply (fetch_writes_only_own_key serving (get_request "/chat.js" "no-cors")
           with_older_bucket "ben-chat-v0" index_url).
  left. discriminate.
Defined.

(** X17: Outside [/api/] the promise given to [respondWith] is never rejected:
    it is fulfilled with a response or with [undefined], whatever the
    network and the cache do. *)
Theorem respond_never_rejects_outside_api (pf : Platform) (request : Request)
    (caches : CacheStorage) :
  String.prefix "/api/" (pathname (url request)) = false ->
  exists answer,
    result_of (on_fetch pf request caches) = Resolved (Resolved answer).
Proof.
  intros Hapi.
  destruct (storage_match request caches) as [hit|] eqn:Hmatch.
  - rewrite (on_fetch_hit pf request caches hit Hapi Hmatch). eexists. reflexivity.
  - destruct (network pf request) as [response|e] eqn:Hnet.
    + rewrite (on_fetch_miss_ok pf request caches response Hapi Hmatch Hnet).
      destruct (String.eqb (method request) "GET" && (status response =? 200));
        eexists; reflexivity.
    + rewrite (on_fetch_offline_miss pf request caches e Hapi Hmatch Hnet).
      destruct (String.eqb (mode request) "navigate"); eexists; reflexivity.
Qed.

Lemma respond_never_rejects_outside_api_witness :
  exists answer,
    result_of (on_fetch offline
                 {| url := {| origin := app_origin; pathname := "/upload";
                              search := "" |};
                    method := "POST"; mode := "cors"; body_json := None |}
                 shell_only)
    = Resolved (Resolved answer).
Proof.
  apply (respond_never_rejects_outside_api offline
           {| url := {| origin := app_origin; pathname := "/upload"; search := "" |};
              method := "POST"; mode := "cors"; body_json := None |}
           shell_only).
  reflexivity.
Defined.

Lemma storage_match_nowhere (request : Request) (caches : CacheStorage) :
  Forall (fun b : string * Cache => snd b !! href (url request) = None) caches ->
  storage_match request caches = None.
Proof.
  induction 1 as [|[n c] rest Hc _ IH]; [reflexivity|].
  cbn [storage_match]. unfold cache_lookup. cbn [snd] in Hc.
  destruct (String.eqb (method request) "GET"); [rewrite Hc|]; exact IH.
Qed.

(** X18: The fallback looks for [/index.html] and nothing else: when no bucket
    holds an entry under that URL (whatever else is cached, the document
    under [/] included), a failed navigation is answered with [undefined],
    not with a response. *)
Theorem navigation_without_index (pf : Platform) (request : Request)
    (caches : CacheStorage) (e : error) :
  String.prefix "/api/" (pathname (url request)) = false ->
  storage_match request caches = None ->
  network pf request = Rejected e ->
  mode request = "navigate" ->
  Forall (fun b : string * Cache => snd b !! index_key pf = None) caches ->
  result_of (on_fetch pf request caches) = Resolved (Resolved None).
Proof.
  intros Hapi Hmiss Hnet Hmode Hnone.
  rewrite (on_fetch_offline_miss pf request caches e Hapi Hmiss Hnet).
  rewrite Hmode. cbn [String.eqb Ascii.eqb Bool.eqb].
  unfold result_of. cbn [snd].
  rewrite (storage_match_nowhere (request_of_string pf "/index.html") caches Hnone).
  reflexivity.
Qed.

Lemma navigation_without_index_witness :
  result_of (on_fetch offline (get_request "/settings" "navigate")
               [(CACHE_NAME, {[ "https://chat.example/" := page "root" ]})])
  = Resolved (Resolved None).
Proof.
  apply (navigation_without_index offline (get_request "/settings" "navigate")
           [(CACHE_NAME, {[ "https://chat.example/" := page "root" ]})]
           (HostError "offline")); try reflexivity.
  repeat constructor.
Defined.

(** ** The three listeners together *)

Lemma filter_current_head (entries : list (Request * Response))
    (caches : CacheStorage) :
  has_bucket CACHE_NAME caches = true ->
  exists c rest,
    List.filter (fun b : string * Cache => String.eqb (fst b) CACHE_NAME)
      (store_all CACHE_NAME entries caches)
    = (CACHE_NAME, insert_all entries c) :: rest.
Proof.
  unfold has_bucket, store_all.
  induction caches as [|[n c] rest IH]; intros Hhas; [discriminate Hhas|].
  cbn [existsb fst] in Hhas. cbn [List.map fst snd].
  destruct (String.eqb_spec n CACHE_NAME) as [->|Hn].
  - cbn [List.filter fst]. rewrite String.eqb_refl. eexists _, _. reflexivity.
  - cbn [List.filter fst].
    destruct (String.eqb_spec n CACHE_NAME) as [|_]; [contradiction|].
    apply IH. exact Hhas.
Qed.

(** X19: Install, activate, then go offline: when the worker's origin is
    http or https and every shell asset was fetched at install with a
    response that [addAll] accepts, a navigation that misses the cache and
    fails at the network is answered with the [/index.html] that install
    fetched, whatever cache storage held before install. *)
Theorem offline_navigation_after_install (pf later : Platform)
    (caches : CacheStorage) (request : Request) (e : error) (doc : Response) :
  http_origin (location_origin pf) = true ->
  existsb (asset_fails pf) STATIC_ASSETS = false ->
  network pf (request_of_string pf "/index.html") = Resolved doc ->
  location_origin later = location_origin pf ->
  String.prefix "/api/" (pathname (url request)) = false ->
  storage_match request
    (caches_of (on_activate (caches_of (on_install pf caches)))) = None ->
  network later request = Rejected e ->
  mode request = "navigate" ->
  result_of
    (on_fetch later request
       (caches_of (on_activate (caches_of (on_install pf caches)))))
  = Resolved (Resolved (Some doc)).
Proof.
  intros Hhttp Hok Hdoc Horigin Hapi Hmiss Hnet Hmode.
  rewrite (on_fetch_offline_miss later request _ e Hapi Hmiss Hnet).
  rewrite Hmode. cbn [String.eqb Ascii.eqb Bool.eqb].
  unfold result_of at 1. cbn [snd]. do 2 f_equal.
  destruct (on_install_run pf caches) as [t [Hinstall _]]. rewrite Hinstall.
  unfold caches_of at 2. cbn [fst snd].
  destruct (on_activate_run
              (store_all CACHE_NAME (installed_entries pf) (opened CACHE_NAME caches)))
    as [flags Hactivate].
  rewrite Hactivate. unfold caches_of. cbn [fst snd].
  destruct (filter_current_head (installed_entries pf) (opened CACHE_NAME caches)
              (has_bucket_opened CACHE_NAME caches)) as [c [rest Hhead]].
  rewrite Hhead. cbn [storage_match snd].
  unfold cache_lookup.
  cbn [method request_of_string String.eqb Ascii.eqb Bool.eqb].
  change (href (url (request_of_string later "/index.html")))
    with (shell_key later "/index.html").
  assert (Hkey : shell_key later "/index.html" = shell_key pf "/index.html").
  { unfold shell_key, href. cbn [url request_of_string origin pathname search].
    rewrite Horigin. reflexivity. }
  rewrite Hkey, lookup_insert_all.
  unfold installed_entries. rewrite (shell_cacheable_http pf Hhttp), Hok.
  cbn [andb negb].
  change (shell_key pf "/index.html")
    with (entry_key (request_of_string pf "/index.html", doc)).
  rewrite latest_present; [reflexivity| |].
  - rewrite (shell_entries_keys_ok pf STATIC_ASSETS Hok).
    apply shell_keys_distinct.
  - apply shell_entries_in; [|exact Hdoc]. right. left. reflexivity.
Qed.

Lemma offline_navigation_after_install_witness :
  result_of
    (on_fetch offline (get_request "/settings" "navigate")
       (caches_of (on_activate (caches_of (on_install serving with_older_bucket)))))
  = Resolved (Resolved (Some (page "shell"))).
Proof.
  apply (offline_navigation_after_install serving offline with_older_bucket
           (get_request "/settings" "navigate") (HostError "offline") (page "shell"));
    reflexivity.
Defined.

End ServiceWorkerExtras.

(** * The cache shell while it serves *)

Module ServiceWorkerLifecycle.
Import ServiceWorker ServiceWorkerProofs ServiceWorkerExtras.
Local Open Scope sw_scope.

(** ** The buckets of a serving worker *)

Lemma only_current_activated (caches : CacheStorage) :
  only_current (caches_of (on_activate caches)).
Proof.
  destruct (on_activate_run caches) as [flags Hrun]. rewrite Hrun.
  unfold caches_of, only_current. cbn [fst snd].
  apply List.Forall_forall. intros b Hb. apply filter_In in Hb.
  apply String.eqb_eq. apply Hb.
Qed.

Lemma only_current_opened (caches : CacheStorage) :
  only_current caches -> only_current (opened CACHE_NAME caches).
Proof.
  intros Hall. unfold opened. destruct (has_bucket CACHE_NAME caches); [exact Hall|].
  unfold only_current. apply List.Forall_app. split; [exact Hall|].
  constructor; [reflexivity|constructor].
Qed.

Lemma only_current_store_all (name : string) (entries : list (Request * Response))
    (caches : CacheStorage) :
  only_current caches -> only_current (store_all name entries caches).
Proof.
  unfold only_current, store_all. intros Hall.
  induction Hall as [|[n c] rest Hn _ IH]; [constructor|].
  cbn [List.map fst snd]. constructor; [|exact IH].
  destruct (String.eqb n name); exact Hn.
Qed.

(** Once activated, the worker keeps cache storage free of buckets of any
    other name. *)
Lemma serving_only_current (caches : CacheStorage) :
  serving_storage caches -> only_current caches.
Proof.
  induction 1 as [caches|pf request caches _ IH|pf caches _ IH].
  - apply only_current_activated.
  - destruct (on_fetch_caches pf request caches) as [Hsame|[entries [Hstored _]]].
    + rewrite Hsame. exact IH.
    + rewrite Hstored. apply only_current_store_all, only_current_opened, IH.
  - destruct (on_install_run pf caches) as [t [Hrun _]]. rewrite Hrun.
    unfold caches_of. cbn [fst snd].
    apply only_current_store_all, only_current_opened, IH.
Qed.


(** A storage that holds a bucket of another name is not one at which the
    worker serves. *)
Lemma older_bucket_not_serving : ~ serving_storage with_older_bucket.
Proof.
  intros Hserving. apply serving_only_current in Hserving.
  inversion Hserving as [|b rest Hname _]. discriminate Hname.
Qed.



End ServiceWorkerLifecycle.
